(** * Jenkins idler: the supervisor's event handlers and the control-plane API

    A shallow embedding of [internal/openshift/controller.go] (the
    supervisor: [HandleBuild], [HandleDeploymentConfig], [createIfNotExist])
    and of the HTTP handlers of package [api] ([UnIdle], [IsIdle],
    [SetUserIdlerStatus]), followed by the properties the specification
    states about them.

    Conventions.
    - A Go [string] is a sequence of bytes: [string] with [String.length]
      for [len] and [substring] for slicing.
    - A Go [int] is a [Z]; none of the modelled code does arithmetic that
      could wrap around.
    - A Go [error] is a value of the inductive type [error]; the text that
      [fmt.Errorf] would format is kept as the constructor and its
      arguments.  [None : option error] is [nil].
    - A [time.Time] is an instant on a [Z] time line.
    - The registry ([UserMap], [UserChannelMap]) is a pair of finite maps
      keyed by namespace.  A channel is represented by the sequence of user
      snapshots the supervisor has offered on it, oldest first; whether the
      receiving idler takes a snapshot within [channelSendTimeout] or the
      snapshot is discarded is decided by the receiving task and is not
      part of this model.  Logging and metrics are left out. *)

From Stdlib Require Import ZArith String Ascii List.
From stdpp Require Import base option gmap strings list.

Open Scope Z_scope.

(** Go's [len] on a string. *)
Definition len (s : string) : Z := Z.of_nat (String.length s).

(** Go's slice expression [s[:hi]]: a run-time panic unless
    [0 <= hi <= len(s)]. *)
Definition slice_to (s : string) (hi : Z) : option string :=
  if bool_decide (0 <= hi <= len s) then Some (substring 0 (Z.to_nat hi) s)
  else None.

(** ** Errors *)

Inductive error : Type :=
| ErrExternal (msg : string)
    (* an error reported by a collaborator (tenant directory, platform) *)
| ErrMultipleTenants (totalCount : Z)
    (* "could not add new user - Tenant service returned multiple items: %d" *)
| ErrTenantNotFound (cluster ns : string) (errors : list string)
    (* "could not find tenant in cluster %s for namespace %s: %+v" *)
| ErrConditionNotFound (type : string)
    (* returned by [GetByType] *)
| ErrParseBool (str : string)
    (* strconv.ParseBool: parsing str: invalid syntax *)
| ErrURLMissing
    (* "OpenShift API URL needs to be specified" *)
| ErrURLUnknown (url : string)
    (* "Unknown or invalid OpenShift API URL: %s" *)
| ErrNamespaceMissing
    (* "Missing mandatory param namespace" *)
| ErrMaxCapacity (url ns : string)
    (* "Maximum Resource limit reached on %s for %s" *)
| ErrJSON (msg : string).
    (* a decoding error of encoding/json *)

(** [strconv.ParseBool] of the Go standard library. *)
Definition ParseBool (str : string) : error + bool :=
  match str with
  | "1" | "t" | "T" | "TRUE" | "true" | "True" => inr true
  | "0" | "f" | "F" | "FALSE" | "false" | "False" => inr false
  | _ => inl (ErrParseBool str)
  end.

(** ** Package [model] *)

Module model.

(** A [time.Time]. *)
Definition Time := Z.

(** Modelled from the spec: the type [model.Metadata] is not among the
    sources.  The handlers read [Metadata.Name], [Metadata.Namespace] and
    [Metadata.Generation]; section 3 lists a name and a namespace for a
    build and a namespace and a generation for a deployment config. *)
Record Metadata := {
  Name : string;
  Namespace : string;
  Generation : Z
}.

(** Modelled from the spec: the type [model.Status] is not among the
    sources.  In section 3: the status of a build is its phase. *)
Record Status := { Phase : string }.

(** Modelled from the spec: the type [model.Build] is not among the sources.
    In section 3: "Metadata {namespace, name} and Status {phase}". *)
Record Build := {
  b_Metadata : Metadata;
  b_Status : Status
}.

(** Modelled from the spec: the type [model.Object] is not among the
    sources.  A build event of the observer stream; the handler reads its
    field [Object]. *)
Record Object := { o_Object : Build }.

(** Modelled from the spec: the type of the elements of [Status.Conditions]
    is not among the sources.  The handler reads the type, the status and
    [LastUpdateTime] of a condition. *)
Record Condition := {
  c_Type : string;
  c_Status : string;
  c_LastUpdateTime : Time
}.

(** Modelled from the spec: the type of [Spec] of a deployment config is not
    among the sources.  In section 3: [Spec.Replicas]. *)
Record Spec := { Replicas : Z }.

(** Modelled from the spec: the type of [Status] of a deployment config is
    not among the sources.  In section 3: [Status.ObservedGeneration],
    [Status.UnavailableReplicas], [Status.Conditions]. *)
Record DCStatus := {
  ObservedGeneration : Z;
  UnavailableReplicas : Z;
  Conditions : list Condition
}.

(** Modelled from the spec: the type of a deployment config is not among the
    sources.  In section 3: metadata, spec and status. *)
Record DeploymentConfig := {
  dc_Metadata : Metadata;
  dc_Spec : Spec;
  dc_Status : DCStatus
}.

(** Modelled from the spec: the type [model.DCObject] is not among the
    sources.  A deployment-config event; the handler reads its field
    [Object]. *)
Record DCObject := { dc_Object : DeploymentConfig }.

(** Modelled from the spec: the type [model.User] is not among the sources.
    In section 3: "tenant id (opaque string), namespace (string),
    ActiveBuild (Build), DoneBuild (Build), JenkinsLastUpdate". *)
Record User := {
  ID : string;
  u_Name : string;
  ActiveBuild : Build;
  DoneBuild : Build;
  JenkinsLastUpdate : Time
}.

(** Go's zero value of [Metadata]. *)
Definition zeroMetadata : Metadata :=
  {| Name := EmptyString; Namespace := EmptyString; Generation := 0 |}.

(** Go's zero value of [Build]. *)
Definition zeroBuild : Build :=
  {| b_Metadata := zeroMetadata; b_Status := {| Phase := EmptyString |} |}.

(** Go's zero value of [User]: what [UserMap.Load] returns for a namespace
    that is not there. *)
Definition zeroUser : User :=
  {| ID := EmptyString; u_Name := EmptyString; ActiveBuild := zeroBuild;
     DoneBuild := zeroBuild; JenkinsLastUpdate := 0 |}.

(** The composite literal [model.Build{Status: model.Status{Phase: "New"}}]
    of [HandleBuild]. *)
Definition sentinelBuild : Build :=
  {| b_Metadata := zeroMetadata; b_Status := {| Phase := "New" |} |}.

(** The assignment [user.ActiveBuild = b] on a local [User]. *)
Definition withActiveBuild (u : User) (b : Build) : User :=
  {| ID := ID u; u_Name := u_Name u; ActiveBuild := b;
     DoneBuild := DoneBuild u; JenkinsLastUpdate := JenkinsLastUpdate u |}.

(** The assignment [user.DoneBuild = b]. *)
Definition withDoneBuild (u : User) (b : Build) : User :=
  {| ID := ID u; u_Name := u_Name u; ActiveBuild := ActiveBuild u;
     DoneBuild := b; JenkinsLastUpdate := JenkinsLastUpdate u |}.

(** The assignment [user.JenkinsLastUpdate = t]. *)
Definition withJenkinsLastUpdate (u : User) (t : Time) : User :=
  {| ID := ID u; u_Name := u_Name u; ActiveBuild := ActiveBuild u;
     DoneBuild := DoneBuild u; JenkinsLastUpdate := t |}.

(** Modelled from the spec: [model.NewUser] is not among the sources.
    In section 4.1: "Allocate a new User with the returned tenant id"; the
    scenario of section 8 shows [User{id, ns}].  The other fields take
    their zero values. *)
Definition NewUser (id ns : string) : User :=
  {| ID := id; u_Name := ns; ActiveBuild := zeroBuild;
     DoneBuild := zeroBuild; JenkinsLastUpdate := 0 |}.

(** Modelled from the spec: the search behind [GetByType], which is not
    among the sources: the first condition of the given type, if any. *)
Fixpoint findCondition (t : string) (cs : list Condition) : option Condition :=
  match cs with
  | [] => None
  | c :: cs' => if bool_decide (c_Type c = t) then Some c else findCondition t cs'
  end.

(** Modelled from the spec: the method [GetByType] of the status of a
    deployment config is not among the sources.  In section 4.1: the
    handler "fails if the required Available condition is missing". *)
Definition GetByType (s : DCStatus) (t : string) : error + Condition :=
  match findCondition t (Conditions s) with
  | Some c => inr c
  | None => inl (ErrConditionNotFound t)
  end.

(** Modelled from the spec: the type [model.PodState] is not among the
    sources.  In section 3: a "totally ordered enum"; an integer type. *)
Definition PodState := Z.

(** Modelled from the spec: the constant [model.PodIdled] is not among the
    sources.  In section 3: "Idle < Starting < Running"; the constants are
    numbered in that order. *)
Definition PodIdled : PodState := 0.

(** Modelled from the spec: the constant [model.PodStarting] is not among
    the sources; the second state of "Idle < Starting < Running". *)
Definition PodStarting : PodState := 1.

(** Modelled from the spec: the constant [model.PodRunning] is not among the
    sources; the third state of "Idle < Starting < Running". *)
Definition PodRunning : PodState := 2.

(** Modelled from the spec: the type [model.StringSet] is not among the
    sources.  In section 3: "a process-wide set of tenant ids". *)
Definition StringSet := gset string.

(** Modelled from the spec: the method [StringSet.Add] is not among the
    sources; it takes a slice of keys and puts each of them in the set. *)
Definition Add (keys : list string) (s : StringSet) : StringSet :=
  s ∪ list_to_set keys.

(** Modelled from the spec: the method [StringSet.Remove] is not among the
    sources; it takes a slice of keys and takes each of them out of the
    set. *)
Definition Remove (keys : list string) (s : StringSet) : StringSet :=
  s ∖ list_to_set keys.

End model.

(** ** Collaborators *)

Module tenant.

(** Modelled from the spec: the type of the elements of [Data] in the answer
    of the tenant directory is not among the sources.  In section 6:
    "Data:[{ID,...}]". *)
Record InfoData := { ti_ID : string }.

(** Modelled from the spec: the type of the answer of the tenant directory
    is not among the sources.  In section 6: "{Meta:{TotalCount},
    Data:[{ID,...}], Errors}". *)
Record InfoList := {
  TotalCount : Z;              (* Meta.TotalCount *)
  Data : list InfoData;
  Errors : list string
}.

(** Modelled from the spec: [tenant.Tenant] is not among the sources.  In
    section 6: "GetTenantInfoByNamespace(cluster, ns)", a fallible call; the
    directory is outside the program, and the field is its answer. *)
Record Tenant := {
  GetTenantInfoByNamespace : string -> string -> error + InfoList
}.

End tenant.

(** ** Package [openshift]: the supervisor *)

Module openshift.
Import model.

Definition availableCond : string := "Available".
Definition jenkinsNamespaceSuffix : string := "-jenkins".

(** A channel of user snapshots: what has been offered on it so far. *)
Abbreviation Chan := (list User).

Record controllerImpl := {
  users : gmap string User;
  userChannels : gmap string Chan;
  idlers : list User;          (* the idlers started so far, in start order *)
  apiURL : string;             (* openShiftClient.GetAPIURL() *)
  tenant : tenant.Tenant
}.

(** The handlers run in a state monad over the controller. *)
Definition M (A : Type) : Type := controllerImpl -> A * controllerImpl.

#[export] Instance M_ret : MRet M := fun A (a : A) oc => (a, oc).
#[export] Instance M_bind : MBind M :=
  fun A B (f : A -> M B) (m : M A) oc => let '(a, oc') := m oc in f a oc'.

(** Modelled from the spec: [UserMap] and its [Load] are not among the
    sources.  In section 4.1: "Two maps keyed by namespace: one for user
    records, one for per-idler input channels".  [oc.users.Load(ns)]
    returns the record and whether it is there. *)
Definition Load (ns : string) : M (option User) :=
  fun oc => (users oc !! ns, oc).

(** Modelled from the spec: [UserMap.Store] is not among the sources; the
    map of section 4.1, updated at [ns].  [oc.users.Store(ns, user)]. *)
Definition Store (ns : string) (user : User) : M unit :=
  fun oc =>
    (tt, {| users := <[ns := user]> (users oc);
            userChannels := userChannels oc;
            idlers := idlers oc;
            apiURL := apiURL oc;
            tenant := tenant oc |}).

(** Modelled from the spec: [idler.NewUserIdler], [GetChannel], [Run] and
    [UserChannelMap.Store] are not among the sources.  In section 4.1:
    "Construct and start a Per-user Idler, publishing its input channel
    into the channel map".  The three statements that follow
    [oc.users.Store(ns, newUser)] in [createIfNotExist]. *)
Definition startIdler (ns : string) (newUser : User) : M unit :=
  fun oc =>
    (tt, {| users := users oc;
            userChannels := <[ns := []]> (userChannels oc);
            idlers := idlers oc ++ [newUser];
            apiURL := apiURL oc;
            tenant := tenant oc |}).

Definition sendUserToIdler (ns : string) (user : User) : M unit :=
  fun oc =>
    match userChannels oc !! ns with
    | None => (tt, oc)   (* "No channel found for sending user instance" *)
    | Some ch =>
        (tt, {| users := users oc;
                userChannels := <[ns := ch ++ [user]]> (userChannels oc);
                idlers := idlers oc;
                apiURL := apiURL oc;
                tenant := tenant oc |})
    end.

Definition userForNamespace (ns : string) : M User :=
  user ← Load ns; mret (default zeroUser user).

Definition GetUser (ns : string) : M User := userForNamespace ns.

Definition createIfNotExist (ns : string) : M (option error) :=
  found ← Load ns;
  match found with
  | Some _ => mret None
  | None =>
      fun oc =>
        match tenant.GetTenantInfoByNamespace (tenant oc) (apiURL oc) ns with
        | inl err => (Some err, oc)
        | inr ti =>
            if bool_decide (tenant.TotalCount ti > 1) then
              (Some (ErrMultipleTenants (tenant.TotalCount ti)), oc)
            else
              match tenant.Data ti with
              | [] => (Some (ErrTenantNotFound (apiURL oc) ns (tenant.Errors ti)), oc)
              | d :: _ =>
                  let newUser := NewUser (tenant.ti_ID d) ns in
                  (Store ns newUser;; startIdler ns newUser;; mret None) oc
              end
        end
  end.

Section WithPhases.

(** [model.Phases], a [map[string]int] that is not among the sources: a
    parameter of the development.  A key that is absent reads as 0. *)
Variable Phases : gmap string Z.

Definition isActive (b : Build) : bool :=
  bool_decide (default 0 (Phases !! Phase (b_Status b)) = 1).

Definition HandleBuild (o : Object) : M (option error) :=
  let ns := Namespace (b_Metadata (o_Object o)) in
  err ← createIfNotExist ns;
  match err with
  | Some e => mret (Some e)
  | None =>
      user ← userForNamespace ns;
      user ←
        (if isActive (o_Object o) then
           let lastActive := ActiveBuild user in
           if bool_decide (Phase (b_Status lastActive) <> Phase (b_Status (o_Object o)))
              || bool_decide (Name (b_Metadata lastActive) <> Name (b_Metadata (o_Object o)))
           then
             let user := withActiveBuild user (o_Object o) in
             Store ns user;; sendUserToIdler ns user;; mret user
           else mret user
         else
           let lastDone := DoneBuild user in
           if bool_decide (Phase (b_Status lastDone) <> Phase (b_Status (o_Object o)))
              || bool_decide (Name (b_Metadata lastDone) <> Name (b_Metadata (o_Object o)))
           then
             let user := withDoneBuild user (o_Object o) in
             Store ns user;; sendUserToIdler ns user;; mret user
           else mret user);
      (if bool_decide (Name (b_Metadata (ActiveBuild user)) = Name (b_Metadata (DoneBuild user)))
       then
         let user := withActiveBuild user sentinelBuild in
         Store ns user;; sendUserToIdler ns user
       else mret tt);;
      mret None
  end.

End WithPhases.

(** What a call of [HandleDeploymentConfig] does: it returns (an error or
    [nil]) or it panics. *)
Inductive outcome :=
| Returned (err : option error)
| Panicked.

(** [dcns[:len(dcns)-len(jenkinsNamespaceSuffix)]] *)
Definition userNamespaceOf (dcns : string) : option string :=
  slice_to dcns (len dcns - len jenkinsNamespaceSuffix).

(** [now] is the reading of [time.Now().UTC()] during the call. *)
Definition HandleDeploymentConfig (now : Time) (dc : DCObject) : M outcome :=
  match userNamespaceOf (Namespace (dc_Metadata (dc_Object dc))) with
  | None => mret Panicked
  | Some ns =>
      err ← createIfNotExist ns;
      match err with
      | Some e => mret (Returned (Some e))
      | None =>
          user ← userForNamespace ns;
          match GetByType (dc_Status (dc_Object dc)) availableCond with
          | inl e => mret (Returned (Some e))
          | inr c =>
              user ←
                (if (bool_decide (Generation (dc_Metadata (dc_Object dc))
                                  <> ObservedGeneration (dc_Status (dc_Object dc)))
                     && bool_decide (Replicas (dc_Spec (dc_Object dc)) > 0))
                    || bool_decide (UnavailableReplicas (dc_Status (dc_Object dc)) > 0)
                 then
                   let user := withJenkinsLastUpdate user now in
                   Store ns user;; sendUserToIdler ns user;; mret user
                 else mret user);
              match ParseBool (c_Status c) with
              | inl e => mret (Returned (Some e))
              | inr status =>
                  (if status then
                     let user := withJenkinsLastUpdate user (c_LastUpdateTime c) in
                     Store ns user;; sendUserToIdler ns user
                   else mret tt);;
                  mret (Returned None)
              end
          end
      end
  end.

End openshift.

(** ** The platform and the tenant directory as the control plane sees them *)

(** A call the control plane makes on a collaborator, with its result.  The
    handlers append to a log of these; a collaborator's answer may depend on
    the calls made before (on the log). *)
Inductive Event : Type :=
| EvState (url token ns service : string) (res : error + model.PodState)
| EvUnIdle (url token ns service : string) (res : option error)
| EvHasReachedMaxCapacity (url ns : string) (res : error + bool).

Module client.

(** Modelled from the spec: [client.OpenShiftClient] is not among the
    sources.  In section 6: "UnIdle(cluster, token, ns, service)" and
    "State(cluster, token, ns, service) -> PodState", blocking and fallible;
    the platform is outside the program, and a field is its answer given
    the calls made so far. *)
Record OpenShiftClient := {
  State : list Event -> string -> string -> string -> string -> error + model.PodState;
  UnIdle : list Event -> string -> string -> string -> string -> option error
}.

End client.

Module cluster.

(** Modelled from the spec: [cluster.View] is not among the sources.  In
    section 4.3: "The cluster view maps URL -> bearer token"; [GetToken(url)]
    returns the token and whether the cluster is known. *)
Record View := { GetToken : string -> option string }.

End cluster.

Module tenantsvc.

(** Modelled from the spec: [tenant.Service] is not among the sources.  In
    section 6: "HasReachedMaxCapacity(cluster, ns) -> bool", a fallible
    call; the field is the answer given the calls made so far. *)
Record Service := {
  HasReachedMaxCapacity : list Event -> string -> string -> error + bool
}.

End tenantsvc.

(** ** Package [api]: the control plane *)

Module api.
Import model.

Definition OpenShiftAPIParam : string := "openshift_api_url".

Definition StatusOK : Z := 200.
Definition StatusBadRequest : Z := 400.
Definition StatusInternalServerError : Z := 500.
Definition StatusServiceUnavailable : Z := 503.

Record idler := {
  clusterView : cluster.View;
  openShiftClient : client.OpenShiftClient;
  tenantService : tenantsvc.Service;
  disabledUsers : StringSet;
  calls : list Event             (* the calls made on the collaborators so far *)
}.

Record status := { IsIdle_ : bool }.

Record userStatus := {
  Disable : list string;
  Enable : list string
}.

(** An [http.Request]: the query of its URL and the outcome of
    [json.NewDecoder(r.Body).Decode(&users)]. *)
Record Request := {
  Query : gmap string (list string);
  Body : error + userStatus
}.

(** [httprouter.Params] and its [ByName]: the value of the first parameter of
    that name, the empty string when there is none. *)
Definition Params := list (string * string).

Fixpoint ByName (ps : Params) (name : string) : string :=
  match ps with
  | [] => EmptyString
  | (k, v) :: ps' => if bool_decide (k = name) then v else ByName ps' name
  end.

(** What a handler has written on its [http.ResponseWriter]. *)
Inductive Payload : Type :=
| NoBody
| ErrorBody (err : error)        (* {"error": "<err>"} *)
| StatusBody (s : status).       (* {"is_idle": <bool>} *)

Record Response := {
  code : Z;
  jsonContentType : bool;        (* Content-Type: application/json was set *)
  payload : Payload
}.

(** [w.WriteHeader(code)] on a fresh writer. *)
Definition WriteHeader (c : Z) : Response :=
  {| code := c; jsonContentType := false; payload := NoBody |}.

Definition respondWithError (c : Z) (err : error) : Response :=
  {| code := c; jsonContentType := true; payload := ErrorBody err |}.

Definition writeResponse (c : Z) (s : status) : Response :=
  {| code := c; jsonContentType := true; payload := StatusBody s |}.

(** The handlers run in a state monad over the [idler]. *)
Definition H (A : Type) : Type := idler -> A * idler.

#[export] Instance H_ret : MRet H := fun A (a : A) api => (a, api).
#[export] Instance H_bind : MBind H :=
  fun A B (f : A -> H B) (m : H A) api => let '(a, api') := m api in f a api'.

Definition logCall (ev : Event) (api : idler) : idler :=
  {| clusterView := clusterView api;
     openShiftClient := openShiftClient api;
     tenantService := tenantService api;
     disabledUsers := disabledUsers api;
     calls := calls api ++ [ev] |}.

(** [api.openShiftClient.State(url, token, ns, service)] *)
Definition callState (url token ns service : string) : H (error + PodState) :=
  fun api =>
    let res := client.State (openShiftClient api) (calls api) url token ns service in
    (res, logCall (EvState url token ns service res) api).

(** [api.openShiftClient.UnIdle(url, token, ns, service)] *)
Definition callUnIdle (url token ns service : string) : H (option error) :=
  fun api =>
    let res := client.UnIdle (openShiftClient api) (calls api) url token ns service in
    (res, logCall (EvUnIdle url token ns service res) api).

(** [api.tenantService.HasReachedMaxCapacity(url, ns)] *)
Definition callHasReachedMaxCapacity (url ns : string) : H (error + bool) :=
  fun api =>
    let res := tenantsvc.HasReachedMaxCapacity (tenantService api) (calls api) url ns in
    (res, logCall (EvHasReachedMaxCapacity url ns res) api).

Definition getURLAndToken (r : Request) : H (error + string * string) :=
  fun api =>
    match Query r !! OpenShiftAPIParam with
    | None | Some [] => (inl ErrURLMissing, api)
    | Some (openShiftAPIURL :: _) =>
        match cluster.GetToken (clusterView api) openShiftAPIURL with
        | Some bearerToken => (inr (openShiftAPIURL, bearerToken), api)
        | None => (inl (ErrURLUnknown openShiftAPIURL), api)
        end
    end.

Definition isJenkinsUnIdled (openshiftURL openshiftToken namespace : string)
  : H (error + bool) :=
  state ← callState openshiftURL openshiftToken namespace "jenkins";
  match state with
  | inl err => mret (inl err)
  | inr state =>
      mret (inr (bool_decide (state = PodStarting) || bool_decide (state = PodRunning)))
  end.

Definition IsIdle (r : Request) (ps : Params) : H Response :=
  ut ← getURLAndToken r;
  match ut with
  | inl err => mret (respondWithError StatusBadRequest err)
  | inr (openShiftAPI, openShiftBearerToken) =>
      state ← callState openShiftAPI openShiftBearerToken (ByName ps "namespace") "jenkins";
      match state with
      | inl err => mret (respondWithError StatusInternalServerError err)
      | inr state =>
          mret (writeResponse StatusOK {| IsIdle_ := bool_decide (state < PodRunning) |})
      end
  end.

Definition SetUserIdlerStatus (r : Request) (ps : Params) : H Response :=
  match Body r with
  | inl err => mret (respondWithError StatusBadRequest err)
  | inr users =>
      fun api =>
        (* enabled users will take precedence over disabled *)
        (WriteHeader StatusOK,
         {| clusterView := clusterView api;
            openShiftClient := openShiftClient api;
            tenantService := tenantService api;
            disabledUsers := Remove (Enable users) (Add (Disable users) (disabledUsers api));
            calls := calls api |})
  end.

Section WithLibraries.

(** [strings.TrimSpace] of the Go standard library and the slice
    [pidler.JenkinsServices], which is not among the sources: parameters of
    the development. *)
Variable TrimSpace : string -> string.
Variable JenkinsServices : list string.

(** The loop [for _, service := range pidler.JenkinsServices] of [UnIdle]:
    the first error ends it. *)
Fixpoint unidleServices (url token ns : string) (services : list string)
  : H (option error) :=
  match services with
  | [] => mret None
  | service :: rest =>
      err ← callUnIdle url token ns service;
      match err with
      | Some e => mret (Some e)
      | None => unidleServices url token ns rest
      end
  end.

Definition UnIdle (r : Request) (ps : Params) : H Response :=
  ut ← getURLAndToken r;
  match ut with
  | inl err => mret (respondWithError StatusBadRequest err)
  | inr (openshiftURL, openshiftToken) =>
      let ns := TrimSpace (ByName ps "namespace") in
      if bool_decide (ns = EmptyString) then
        mret (respondWithError StatusBadRequest ErrNamespaceMissing)
      else
        (* may be jenkins is already running *)
        running ← isJenkinsUnIdled openshiftURL openshiftToken ns;
        match running with
        | inl err => mret (respondWithError StatusInternalServerError err)
        | inr true => mret (WriteHeader StatusOK)
        | inr false =>
            (* has the cluster reached its maximum capacity? *)
            clusterFull ← callHasReachedMaxCapacity openshiftURL ns;
            match clusterFull with
            | inl err => mret (respondWithError StatusInternalServerError err)
            | inr true =>
                mret (respondWithError StatusServiceUnavailable
                        (ErrMaxCapacity openshiftURL ns))
            | inr false =>
                (* unidle now *)
                err ← unidleServices openshiftURL openshiftToken ns JenkinsServices;
                match err with
                | Some e => mret (respondWithError StatusInternalServerError e)
                | None => mret (WriteHeader StatusOK)
                end
            end
        end
  end.

End WithLibraries.

End api.

(** ** Vocabulary of the statements *)

Module props.
Import model openshift.

(** The snapshots offered so far on the channel of a namespace. *)
Definition offered (oc : controllerImpl) (ns : string) : list User :=
  default [] (userChannels oc !! ns).

(** The record a reader gets from [GetUser]. *)
Definition stored (oc : controllerImpl) (ns : string) : User :=
  fst (GetUser ns oc).

(** The state in which a handler finds the registry once [createIfNotExist]
    has run. *)
Definition registered (ns : string) (oc : controllerImpl) : controllerImpl :=
  snd (createIfNotExist ns oc).

(** The guard of both branches of [HandleBuild]. *)
Definition differs (last b : Build) : bool :=
  bool_decide (Phase (b_Status last) <> Phase (b_Status b))
  || bool_decide (Name (b_Metadata last) <> Name (b_Metadata b)).

(** What [HandleBuild] does to its local [user], and the snapshots it sends,
    in order: a pure reading of the body, proved equal to it below. *)
Definition branchUser (active : bool) (b : Build) (u : User) : User * list User :=
  if active then
    if differs (ActiveBuild u) b
    then (withActiveBuild u b, [withActiveBuild u b]) else (u, [])
  else
    if differs (DoneBuild u) b
    then (withDoneBuild u b, [withDoneBuild u b]) else (u, []).

Definition resetUser (u : User) : User * list User :=
  if bool_decide (Name (b_Metadata (ActiveBuild u)) = Name (b_Metadata (DoneBuild u)))
  then (withActiveBuild u sentinelBuild, [withActiveBuild u sentinelBuild])
  else (u, []).

Definition buildUser (active : bool) (b : Build) (u : User) : User * list User :=
  let '(u1, s1) := branchUser active b u in
  let '(u2, s2) := resetUser u1 in
  (u2, s1 ++ s2).

(** Stores and sends of one call, folded into one update of the registry. *)
Definition commit (ns : string) (u : User) (sent : list User)
    (oc : controllerImpl) : controllerImpl :=
  {| users := <[ns := u]> (users oc);
     userChannels :=
       match userChannels oc !! ns with
       | Some ch => <[ns := ch ++ sent]> (userChannels oc)
       | None => userChannels oc
       end;
     idlers := idlers oc;
     apiURL := apiURL oc;
     tenant := tenant oc |}.

(** When a second [HandleBuild] of the same build is silent: [u0] is the
    record the first call found. *)
Definition silentRepeat (active : bool) (b : Build) (u0 : User) : bool :=
  if active then
    bool_decide (Name (b_Metadata b) <> Name (b_Metadata (DoneBuild u0)))
  else
    bool_decide (Name (b_Metadata b) <> EmptyString)
    || bool_decide (Name (b_Metadata (ActiveBuild u0)) <> Name (b_Metadata b)).

(** The test of an in-flight rollout in [HandleDeploymentConfig]. *)
Definition rollout (dc : DeploymentConfig) : bool :=
  (bool_decide (Generation (dc_Metadata dc) <> ObservedGeneration (dc_Status dc))
   && bool_decide (Replicas (dc_Spec dc) > 0))
  || bool_decide (UnavailableReplicas (dc_Status dc) > 0).

(** [strings.HasSuffix] of the Go standard library. *)
Definition HasSuffix (s suffix : string) : bool :=
  bool_decide (String.length suffix <= String.length s)%nat
  && bool_decide (substring (String.length s - String.length suffix)
                            (String.length suffix) s = suffix).

(** Modelled from the spec: an instance of [model.Phases], which is not
    among the sources, used where a statement needs a concrete table.  The
    glossary: active "e.g. Running, Pending", done "Complete, Failed,
    Cancelled"; the phase New, the example of a third class, has no entry. *)
Definition examplePhases : gmap string Z :=
  list_to_map [("Running", 1); ("Pending", 1);
               ("Complete", 0); ("Failed", 0); ("Cancelled", 0)].

(** A tenant directory that knows every namespace [ns] as tenant [T-ns]. *)
Definition exampleTenant : tenant.Tenant :=
  {| tenant.GetTenantInfoByNamespace := fun _ ns =>
       inr {| tenant.TotalCount := 1;
              tenant.Data := [ {| tenant.ti_ID := "T-" +:+ ns |} ];
              tenant.Errors := [] |} |}.

(** The supervisor at start-up. *)
Definition emptyController : controllerImpl :=
  {| users := ∅; userChannels := ∅; idlers := [];
     apiURL := "https://cluster.example"; tenant := exampleTenant |}.

Definition exampleBuild (ns name phase : string) : Object :=
  {| o_Object := {| b_Metadata := {| Name := name; Namespace := ns; Generation := 0 |};
                    b_Status := {| Phase := phase |} |} |}.

(** The supervisor after scenario 1 of the specification: build [b-1] of
    [alice] is running. *)
Definition afterFirstBuild : controllerImpl :=
  snd (HandleBuild examplePhases (exampleBuild "alice" "b-1" "Running")
         emptyController).

(** The supervisor after scenarios 1 and 2: build [b-1] has completed. *)
Definition afterBuildFinished : controllerImpl :=
  snd (HandleBuild examplePhases (exampleBuild "alice" "b-1" "Complete")
         afterFirstBuild).

Definition exampleDC (ns : string) (generation observed replicas unavailable : Z)
    (conds : list Condition) : DCObject :=
  {| dc_Object :=
       {| dc_Metadata := {| Name := "jenkins"; Namespace := ns; Generation := generation |};
          dc_Spec := {| Replicas := replicas |};
          dc_Status := {| ObservedGeneration := observed;
                          UnavailableReplicas := unavailable;
                          Conditions := conds |} |} |}.

(** What [HandleDeploymentConfig] does to its local [user] once the
    condition [c] has been found, its result, and the snapshots it sends:
    a pure reading of the body, proved equal to it below. *)
Definition dcUpdate (now : Time) (dc : DeploymentConfig) (c : Condition) (u0 : User)
  : outcome * User * list User :=
  let '(u1, s1) :=
    if rollout dc then (withJenkinsLastUpdate u0 now, [withJenkinsLastUpdate u0 now])
    else (u0, []) in
  match ParseBool (c_Status c) with
  | inl e => (Returned (Some e), u1, s1)
  | inr status =>
      if status then
        (Returned None, withJenkinsLastUpdate u1 (c_LastUpdateTime c),
         s1 ++ [withJenkinsLastUpdate u1 (c_LastUpdateTime c)])
      else (Returned None, u1, s1)
  end.

(** The two ways in which a deployment-config event is malformed. *)
Definition missingAvailable (dc : DeploymentConfig) : bool :=
  match GetByType (dc_Status dc) availableCond with
  | inl _ => true
  | inr _ => false
  end.

Definition unparseableStatus (dc : DeploymentConfig) : bool :=
  match GetByType (dc_Status dc) availableCond with
  | inl _ => false
  | inr c => match ParseBool (c_Status c) with inl _ => true | inr _ => false end
  end.

End props.

(** ** Vocabulary of the statements about the control plane *)

Module apiprops.
Import model api.

(** The calls a request has added to the log. *)
Definition requestCalls (before after : idler) : list Event :=
  drop (length (calls before)) (calls after).

(** The pod state a request has read: the result of its first successful
    [State] call. *)
Fixpoint stateRead (evs : list Event) : option PodState :=
  match evs with
  | [] => None
  | EvState _ _ _ _ (inr st) :: _ => Some st
  | _ :: evs' => stateRead evs'
  end.

(** What the tenant directory has reported about the capacity of the
    cluster: the result of the first successful check. *)
Fixpoint capacityRead (evs : list Event) : option bool :=
  match evs with
  | [] => None
  | EvHasReachedMaxCapacity _ _ (inr full) :: _ => Some full
  | _ :: evs' => capacityRead evs'
  end.

(** The [UnIdle] calls of a log: service and result, in order. *)
Definition unidleCall (ev : Event) : option (string * option error) :=
  match ev with
  | EvUnIdle _ _ _ service res => Some (service, res)
  | _ => None
  end.

Definition unidleCalls (evs : list Event) : list (string * option error) :=
  omap unidleCall evs.

Definition unidleEvent (url token ns : string) (c : string * option error) : Event :=
  EvUnIdle url token ns (fst c) (snd c).

(** White space as [strings.TrimSpace] sees it in ASCII text. *)
Definition isSpace (c : ascii) : bool :=
  let n := nat_of_ascii c in
  bool_decide (9 <= n <= 13)%nat || bool_decide (n = 32)%nat.

Fixpoint trimLeft (s : string) : string :=
  match s with
  | EmptyString => EmptyString
  | String c s' => if isSpace c then trimLeft s' else s
  end.

Fixpoint trimRight (s : string) : string :=
  match s with
  | EmptyString => EmptyString
  | String c s' =>
      match trimRight s' with
      | EmptyString => if isSpace c then EmptyString else String c EmptyString
      | t => String c t
      end
  end.

(** An instance of [strings.TrimSpace] for the examples: it agrees with the
    library function on text whose white space is ASCII. *)
Definition asciiTrimSpace (s : string) : string := trimRight (trimLeft s).

(** A control plane for the examples: one known cluster, an idle platform
    on which every call succeeds, and a tenant directory that reports the
    cluster full. *)
Definition exampleServices : list string := ["jenkins"; "content-repository"].

Definition exampleIdler (state : PodState) (full : bool) (disabled : StringSet) : idler :=
  {| clusterView :=
       {| cluster.GetToken := fun url =>
            if bool_decide (url = "https://cluster.example") then Some "token" else None |};
     openShiftClient :=
       {| client.State := fun _ _ _ _ _ => inr state;
          client.UnIdle := fun _ _ _ _ _ => None |};
     tenantService :=
       {| tenantsvc.HasReachedMaxCapacity := fun _ _ _ => inr full |};
     disabledUsers := disabled;
     calls := [] |}.

(** A request for that cluster; decoding a body that is not there fails. *)
Definition noBody : error + userStatus := inl (ErrJSON "EOF").

Definition exampleRequest (body : error + userStatus) : Request :=
  {| Query := {[ OpenShiftAPIParam := ["https://cluster.example"] ]};
     Body := body |}.

(** The results logged for the [UnIdle] calls are the answers of the
    platform: the result of each call is what the client returns for that
    service after the calls [before] and the calls logged ahead of it. *)
Definition unidleAnswered (api : idler) (before : list Event) (url token ns : string)
    (rs : list (string * option error)) : Prop :=
  forall (i : nat) (c : string * option error),
    rs !! i = Some c ->
    snd c = client.UnIdle (openShiftClient api)
              (before ++ map (unidleEvent url token ns) (take i rs))
              url token ns (fst c).

(** A control plane like [exampleIdler] with room in the cluster, on which
    [UnIdle] fails for the listed services. *)
Definition failingIdler (state : PodState) (failing : list string) : idler :=
  {| clusterView :=
       {| cluster.GetToken := fun url =>
            if bool_decide (url = "https://cluster.example") then Some "token" else None |};
     openShiftClient :=
       {| client.State := fun _ _ _ _ _ => inr state;
          client.UnIdle := fun _ _ _ _ service =>
            if bool_decide (service ∈ failing)
            then Some (ErrExternal "unidle failed") else None |};
     tenantService :=
       {| tenantsvc.HasReachedMaxCapacity := fun _ _ _ => inr false |};
     disabledUsers := ∅;
     calls := [] |}.

End apiprops.

(** ** The supervisor over a run of events *)

Module supervisor.
Import model openshift props.

(** [NewController]: the registry starts with the two maps [NewUserMap()]
    and [NewUserChannelMap()] return, and no idler is running. *)
Definition NewController (url : string) (t : tenant.Tenant) : controllerImpl :=
  {| users := ∅; userChannels := ∅; idlers := []; apiURL := url; tenant := t |}.

(** An event of one of the two observer streams, as the watchers hand it to
    the controller. *)
Inductive input : Type :=
| BuildEvent (o : Object)
| DCEvent (now : Time) (dc : DCObject).

(** The registry after the controller has handled one event; the result of
    the handler is what the watcher logs. *)
Definition handle (Phases : gmap string Z) (i : input) (oc : controllerImpl)
  : controllerImpl :=
  match i with
  | BuildEvent o => snd (HandleBuild Phases o oc)
  | DCEvent now dc => snd (HandleDeploymentConfig now dc oc)
  end.

(** The registry after a sequence of events, handled one after the other. *)
Definition run (Phases : gmap string Z) (events : list input) (oc : controllerImpl)
  : controllerImpl :=
  foldl (fun oc i => handle Phases i oc) oc events.

(** The user namespace an event is about; none when the slice of
    [HandleDeploymentConfig] panics. *)
Definition eventNamespace (i : input) : option string :=
  match i with
  | BuildEvent o => Some (Namespace (b_Metadata (o_Object o)))
  | DCEvent _ dc => userNamespaceOf (Namespace (dc_Metadata (dc_Object dc)))
  end.

(** Every user record has its channel and its idler: the two maps have the
    same keys, and as many idlers have been started as there are records. *)
Definition wellFormed (oc : controllerImpl) : Prop :=
  dom (users oc) = dom (userChannels oc)
  /\ length (idlers oc) = size (users oc).

End supervisor.

(** ** The other handlers of the control plane *)

(** A call of [Idle] or [Reset] on the platform, with its result: the two
    methods of the client that mutate the platform besides [UnIdle].  They
    have a log of their own. *)
Inductive Call : Type :=
| CallIdle (url token ns service : string) (res : option error)
| CallReset (url token ns : string) (res : option error).

Module platform.

(** Modelled from the spec: the methods [Idle] and [Reset] of
    [client.OpenShiftClient], which is not among the sources.  In section 6:
    "Idle(cluster, token, ns, service)" and "Reset(cluster, token, ns)",
    blocking and fallible; a field is the answer of the platform given the
    calls made so far. *)
Record Client := {
  Idle : list Call -> string -> string -> string -> string -> option error;
  Reset : list Call -> string -> string -> string -> option error
}.

End platform.

Module controlplane.
Import model api.

(** The handlers [Idle] and [Reset] run in a state monad over the log of
    their calls. *)
Definition L (A : Type) : Type := list Call -> A * list Call.

#[export] Instance L_ret : MRet L := fun A (a : A) log => (a, log).
#[export] Instance L_bind : MBind L :=
  fun A B (f : A -> L B) (m : L A) log => let '(a, log') := m log in f a log'.

(** [api.openShiftClient.Idle(url, token, ns, service)] *)
Definition callIdle (p : platform.Client) (url token ns service : string)
  : L (option error) :=
  fun log =>
    let res := platform.Idle p log url token ns service in
    (res, log ++ [CallIdle url token ns service res]).

(** [api.openShiftClient.Reset(url, token, ns)] *)
Definition callReset (p : platform.Client) (url token ns : string) : L (option error) :=
  fun log =>
    let res := platform.Reset p log url token ns in
    (res, log ++ [CallReset url token ns res]).

(** The loop [for _, service := range pidler.JenkinsServices] of [Idle]: the
    first error ends it. *)
Fixpoint idleServices (p : platform.Client) (url token ns : string)
    (services : list string) : L (option error) :=
  match services with
  | [] => mret None
  | service :: rest =>
      err ← callIdle p url token ns service;
      match err with
      | Some e => mret (Some e)
      | None => idleServices p url token ns rest
      end
  end.

(** [Idle]; [JenkinsServices] is the slice [pidler.JenkinsServices], which
    is not among the sources. *)
Definition Idle (p : platform.Client) (JenkinsServices : list string)
    (api : idler) (r : Request) (ps : Params) : L Response :=
  match fst (getURLAndToken r api) with
  | inl err => mret (respondWithError StatusBadRequest err)
  | inr (openShiftAPI, openShiftBearerToken) =>
      err ← idleServices p openShiftAPI openShiftBearerToken (ByName ps "namespace")
              JenkinsServices;
      match err with
      | Some e => mret (respondWithError StatusInternalServerError e)
      | None => mret (WriteHeader StatusOK)
      end
  end.

(** [w.WriteHeader(c)] followed by [w.Write] of the error body, as [Reset]
    does: no header is set. *)
Definition writeError (c : Z) (err : error) : Response :=
  {| code := c; jsonContentType := false; payload := ErrorBody err |}.

Definition Reset (p : platform.Client) (api : idler) (r : Request) (ps : Params)
  : L Response :=
  match fst (getURLAndToken r api) with
  | inl err => mret (writeError StatusBadRequest err)
  | inr (openShiftAPI, openShiftBearerToken) =>
      err ← callReset p openShiftAPI openShiftBearerToken (ByName ps "namespace");
      match err with
      | Some e => mret (writeError StatusInternalServerError e)
      | None => mret (WriteHeader StatusOK)
      end
  end.

(** [errorCode] and its two constants. *)
Definition tokenFetchFailed : Z := 1.
Definition openShiftClientError : Z := 2.

(** A [responseError]; the description is a fixed text followed by
    [err.Error()], kept as the pair of the text and the error. *)
Record responseError := {
  Code : Z;
  Description : string * error
}.

Record jenkinsInfo := { State : string }.

(** A [statusResponse]; [Data] is a pointer, [nil] until [SetState]. *)
Record statusResponse := {
  Data : option jenkinsInfo;
  Errors : list responseError
}.

Definition AppendError (c : Z) (description : string * error) (s : statusResponse)
  : statusResponse :=
  {| Data := Data s;
     Errors := Errors s ++ [ {| Code := c; Description := description |} ] |}.

(** What [writeResponse] has written for a value of any type. *)
Record Written (A : Type) := {
  w_code : Z;
  w_json : bool;                 (* Content-Type: application/json was set *)
  w_body : A
}.
Arguments w_code {A} _.
Arguments w_json {A} _.
Arguments w_body {A} _.

Definition writeResponseOf {A : Type} (c : Z) (response : A) : Written A :=
  {| w_code := c; w_json := true; w_body := response |}.

(** [idlerStatusResponse] *)
Record idlerStatusResponse := { Users : list string }.

(** Modelled from the spec: the method [StringSet.Keys] is not among the
    sources; the elements of the set of section 3, each once, in an order
    the handler does not choose. *)
Definition Keys (s : StringSet) : list string := elements s.

Definition GetDisabledUserIdlers (r : Request) (ps : Params)
  : H (Written idlerStatusResponse) :=
  fun api =>
    (writeResponseOf StatusOK {| Users := Keys (disabledUsers api) |}, api).

Section WithString.

(** The method [String] of [model.PodState], which is not among the sources:
    a parameter. *)
Variable PodStateString : PodState -> string.

Definition SetState (state : PodState) (s : statusResponse) : statusResponse :=
  {| Data := Some {| State := PodStateString state |}; Errors := Errors s |}.

Definition Status (r : Request) (ps : Params) : H (Written statusResponse) :=
  let response := {| Data := None; Errors := [] |} in
  ut ← getURLAndToken r;
  match ut with
  | inl err =>
      mret (writeResponseOf StatusBadRequest
              (AppendError tokenFetchFailed
                 ("failed to obtain openshift token: ", err) response))
  | inr (openshiftURL, openshiftToken) =>
      state ← callState openshiftURL openshiftToken (ByName ps "namespace") "jenkins";
      match state with
      | inl err =>
          mret (writeResponseOf StatusInternalServerError
                  (AppendError openShiftClientError
                     ("openshift client error: ", err) response))
      | inr state => mret (writeResponseOf StatusOK (SetState state response))
      end
  end.

End WithString.

(** An [Idle] call of the log, from the service and the result. *)
Definition idleCall (url token ns : string) (c : string * option error) : Call :=
  CallIdle url token ns (fst c) (snd c).

(** A platform on which [Idle] fails for the listed services and every
    other call succeeds. *)
Definition examplePlatform (failing : list string) : platform.Client :=
  {| platform.Idle := fun _ _ _ _ service =>
       if bool_decide (service ∈ failing) then Some (ErrExternal "idle failed") else None;
     platform.Reset := fun _ _ _ _ => None |}.

(** A request that names no cluster. *)
Definition requestWithoutCluster : Request := {| Query := ∅; Body := apiprops.noBody |}.

End controlplane.

(** ** The supervisor: general facts *)

Section ControllerFacts.
Import model openshift props.

Lemma createIfNotExist_known ns oc u :
  users oc !! ns = Some u -> createIfNotExist ns oc = (None, oc).
Proof.
  intros Hu. unfold createIfNotExist, mbind, M_bind, Load. simpl. now rewrite Hu.
Qed.

(** [createIfNotExist]: either the namespace is known and nothing happens,
    or resolution fails and nothing happens, or the user and its idler are
    created. *)
Lemma createIfNotExist_cases ns oc :
  (is_Some (users oc !! ns) /\ createIfNotExist ns oc = (None, oc))
  \/ (users oc !! ns = None /\ exists e, createIfNotExist ns oc = (Some e, oc))
  \/ (users oc !! ns = None /\ exists id,
        createIfNotExist ns oc =
          (None, {| users := <[ns := NewUser id ns]> (users oc);
                    userChannels := <[ns := []]> (userChannels oc);
                    idlers := idlers oc ++ [NewUser id ns];
                    apiURL := apiURL oc;
                    tenant := tenant oc |})).
Proof.
  destruct (users oc !! ns) as [u|] eqn:Hu.
  - left. split; [eauto | eapply createIfNotExist_known; eauto].
  - right. unfold createIfNotExist, mbind, M_bind, Load. simpl. rewrite Hu.
    destruct (tenant.GetTenantInfoByNamespace _ _ _) as [e|ti]; [left; eauto|].
    destruct (bool_decide _); [left; eauto|].
    destruct (tenant.Data ti) as [|d ?]; [left; eauto|].
    right. split; [done|]. exists (tenant.ti_ID d). reflexivity.
Qed.

Lemma createIfNotExist_nil ns oc oc1 :
  createIfNotExist ns oc = (None, oc1) -> is_Some (users oc1 !! ns).
Proof.
  intros H. destruct (createIfNotExist_cases ns oc) as [[Hs E]|[[_ [e E]]|[_ [id E]]]];
    rewrite E in H; inversion H; subst; simpl; auto.
  rewrite lookup_insert_eq. eauto.
Qed.

Lemma commit_nothing ns u oc :
  users oc !! ns = Some u -> commit ns u [] oc = oc.
Proof.
  intros Hu. destruct oc as [us chs ids url t]. unfold commit. simpl in *.
  f_equal.
  - now apply insert_id.
  - destruct (chs !! ns) as [ch|] eqn:Hc; [|done].
    rewrite app_nil_r. now apply insert_id.
Qed.

Lemma users_commit ns u sent oc : users (commit ns u sent oc) !! ns = Some u.
Proof. unfold commit. simpl. apply lookup_insert_eq. Qed.

Lemma stored_commit ns u sent oc : stored (commit ns u sent oc) ns = u.
Proof.
  unfold stored, GetUser, userForNamespace, Load, mbind, M_bind, mret, M_ret.
  simpl. now rewrite lookup_insert_eq.
Qed.

Lemma stored_lookup oc ns u : users oc !! ns = Some u -> stored oc ns = u.
Proof.
  intros Hu. unfold stored, GetUser, userForNamespace, Load, mbind, M_bind, mret, M_ret.
  simpl. now rewrite Hu.
Qed.

(** The body of [HandleBuild] in one step: the local user goes through
    [buildUser], and the stores and sends amount to one [commit]. *)
Lemma HandleBuild_char Phases o oc :
  HandleBuild Phases o oc =
    match createIfNotExist (Namespace (b_Metadata (o_Object o))) oc with
    | (Some e, oc1) => (Some e, oc1)
    | (None, oc1) =>
        let '(u, sent) :=
          buildUser (isActive Phases (o_Object o)) (o_Object o)
                    (stored oc1 (Namespace (b_Metadata (o_Object o)))) in
        (None, commit (Namespace (b_Metadata (o_Object o))) u sent oc1)
    end.
Proof.
  set (ns := Namespace (b_Metadata (o_Object o))).
  unfold HandleBuild. fold ns. unfold mbind at 1. unfold M_bind at 1.
  destruct (createIfNotExist ns oc) as [[e|] oc1] eqn:Hc; [reflexivity|].
  destruct (createIfNotExist_nil _ _ _ Hc) as [u0 Hu0].
  unfold stored, GetUser, userForNamespace, Load, buildUser, branchUser, resetUser, differs.
  unfold mbind, M_bind, mret, M_ret. simpl. rewrite Hu0. simpl.
  destruct oc1 as [us chs ids url t]. simpl in *.
  unfold commit, sendUserToIdler. simpl.
  destruct (chs !! ns) as [ch|] eqn:Hch;
  destruct (isActive Phases (o_Object o));
    destruct (_ || _); simpl;
    repeat first
      [ progress (rewrite ?lookup_insert_eq, ?Hch; simpl)
      | case_bool_decide; simpl in * ];
    try congruence;
    rewrite ?insert_insert_eq, ?app_nil_r, <- ?app_assoc; simpl;
    rewrite ?(insert_id us ns u0), ?(insert_id chs ns ch); auto.
Qed.

(** A successful call, read through [HandleBuild_char]. *)
Lemma HandleBuild_nil Phases o oc oc1 :
  HandleBuild Phases o oc = (None, oc1) ->
  let b := o_Object o in
  let ns := Namespace (b_Metadata b) in
  let ocr := registered ns oc in
  let r := buildUser (isActive Phases b) b (stored ocr ns) in
  createIfNotExist ns oc = (None, ocr)
  /\ oc1 = commit ns (fst r) (snd r) ocr.
Proof.
  intros H b ns ocr r. subst r ocr. unfold registered. subst b ns.
  rewrite HandleBuild_char in H.
  destruct (createIfNotExist _ oc) as [[e|] oc'] eqn:Hc; [discriminate|].
  simpl. destruct (buildUser _ _ _) as [u sent]. inversion H. auto.
Qed.

(** Case analysis of [buildUser]: the innermost test first. *)
Ltac case_inner :=
  match goal with
  | |- context [@bool_decide ?P ?d] =>
      lazymatch P with
      | context [bool_decide _] => fail
      | _ => destruct (@bool_decide_reflect P d)
      end
  end.

Ltac build_cases :=
  match goal with
  | u : User, b : Build |- _ =>
      destruct u as [? ? [[? ? ?] [?]] [[? ? ?] [?]] ?];
      destruct b as [[? ? ?] [?]]
  end;
  match goal with a : bool |- _ => destruct a end;
  unfold buildUser, branchUser, resetUser, differs, silentRepeat; cbn;
  repeat (case_inner;
          repeat match goal with H : ~ (_ <> _) |- _ => apply dec_stable in H end;
          subst; cbn; try congruence);
  try reflexivity.

Lemma buildUser_idem a b u :
  fst (buildUser a b (fst (buildUser a b u))) = fst (buildUser a b u).
Proof. build_cases. Qed.

Lemma buildUser_silent a b u :
  silentRepeat a b u = true ->
  snd (buildUser a b (fst (buildUser a b u))) = [].
Proof. build_cases. Qed.

Lemma buildUser_noisy a b u :
  silentRepeat a b u = false ->
  snd (buildUser a b (fst (buildUser a b u))) <> [].
Proof. build_cases. Qed.

Lemma buildUser_done b u :
  let u1 := fst (buildUser false b u) in
  DoneBuild u1 = (if differs (DoneBuild u) b then b else DoneBuild u)
  /\ Phase (b_Status (DoneBuild u1)) = Phase (b_Status b)
  /\ Name (b_Metadata (DoneBuild u1)) = Name (b_Metadata b)
  /\ ActiveBuild u1 =
       (if bool_decide (Name (b_Metadata (ActiveBuild u)) = Name (b_Metadata b))
        then sentinelBuild else ActiveBuild u).
Proof.
  pose (a := false). change (buildUser false b u) with (buildUser a b u).
  assert (Ha : a = false) by reflexivity. clearbody a. revert Ha.
  build_cases; intros; repeat split; congruence.
Qed.

Lemma buildUser_active b u :
  let u1 := fst (buildUser true b u) in
  DoneBuild u1 = DoneBuild u
  /\ (if bool_decide (Name (b_Metadata b) = Name (b_Metadata (DoneBuild u)))
      then ActiveBuild u1 = sentinelBuild
      else Phase (b_Status (ActiveBuild u1)) = Phase (b_Status b)
           /\ Name (b_Metadata (ActiveBuild u1)) = Name (b_Metadata b)
           /\ ActiveBuild u1 = (if differs (ActiveBuild u) b then b else ActiveBuild u)).
Proof.
  pose (a := true). change (buildUser true b u) with (buildUser a b u).
  assert (Ha : a = true) by reflexivity. clearbody a. revert Ha.
  build_cases; intros; repeat split; congruence.
Qed.

Lemma buildUser_reset a b u :
  let u1 := fst (buildUser a b u) in
  Name (b_Metadata (ActiveBuild u1)) = Name (b_Metadata (DoneBuild u1)) ->
  ActiveBuild u1 = sentinelBuild.
Proof. build_cases. Qed.

End ControllerFacts.

(** ** [HandleBuild] *)

Section HandleBuildClaims.
Import model openshift props.

(** C1, as amended.  When a first [HandleBuild(b)] has returned without
    error, a second [HandleBuild(b)] returns without error and leaves the
    stored user records and the started idlers as the first call left
    them.  It sends nothing (the whole registry is unchanged) when [b] is
    active and its name differs from the name of the [DoneBuild] the first
    call found, or when [b] is not active and its name is not empty or
    differs from the name of the [ActiveBuild] the first call found. *)
Theorem HandleBuild_repeated (Phases : gmap string Z) (o : Object)
    (oc oc1 : controllerImpl) :
  HandleBuild Phases o oc = (None, oc1) ->
  let b := o_Object o in
  let ns := Namespace (b_Metadata b) in
  let u0 := stored (registered ns oc) ns in
  exists oc2,
    HandleBuild Phases o oc1 = (None, oc2)
    /\ users oc2 = users oc1
    /\ idlers oc2 = idlers oc1
    /\ (silentRepeat (isActive Phases b) b u0 = true -> oc2 = oc1).
Proof.
  intros H b ns u0.
  destruct (HandleBuild_nil _ _ _ _ H) as [Hc Hoc1]. fold b ns in Hc, Hoc1.
  set (ocr := registered ns oc) in *. fold u0 in Hoc1.
  set (a := isActive Phases b) in *.
  set (r := buildUser a b u0) in *.
  assert (Hu1 : users oc1 !! ns = Some (fst r)) by (rewrite Hoc1; apply users_commit).
  assert (Hs1 : stored oc1 ns = fst r) by (now apply stored_lookup).
  exists (commit ns (fst (buildUser a b (fst r))) (snd (buildUser a b (fst r))) oc1).
  split.
  { rewrite HandleBuild_char. fold b ns a.
    rewrite (createIfNotExist_known ns oc1 _ Hu1), Hs1.
    now destruct (buildUser a b (fst r)). }
  subst r. rewrite buildUser_idem.
  split; [|split].
  - rewrite Hoc1. unfold commit. simpl. now rewrite insert_insert_eq.
  - reflexivity.
  - intros Hq. rewrite (buildUser_silent _ _ _ Hq).
    now apply commit_nothing.
Qed.

(** C3, as amended.  [HandleBuild] has two classes of phases only: a build
    that is not active ([Phases[phase] != 1]) is handled as done.  It
    becomes the stored [DoneBuild] when its phase or its name differs from
    the stored one's, so that the stored [DoneBuild] has its phase and its
    name in every case; [ActiveBuild] is left as it was, except that it is
    reset to the sentinel when its name is the name of the build. *)
Theorem HandleBuild_not_active (Phases : gmap string Z) (o : Object)
    (oc oc1 : controllerImpl) :
  isActive Phases (o_Object o) = false ->
  HandleBuild Phases o oc = (None, oc1) ->
  let b := o_Object o in
  let ns := Namespace (b_Metadata b) in
  let u0 := stored (registered ns oc) ns in
  let u1 := stored oc1 ns in
  DoneBuild u1 = (if differs (DoneBuild u0) b then b else DoneBuild u0)
  /\ Phase (b_Status (DoneBuild u1)) = Phase (b_Status b)
  /\ Name (b_Metadata (DoneBuild u1)) = Name (b_Metadata b)
  /\ ActiveBuild u1 =
       (if bool_decide (Name (b_Metadata (ActiveBuild u0)) = Name (b_Metadata b))
        then sentinelBuild else ActiveBuild u0).
Proof.
  intros Ha H b ns u0 u1.
  destruct (HandleBuild_nil _ _ _ _ H) as [_ Hoc1]. fold b ns in Hoc1.
  fold b in Ha. rewrite Ha in Hoc1. fold u0 in Hoc1.
  subst u1. rewrite Hoc1, stored_commit.
  apply buildUser_done.
Qed.

(** C4, as amended.  After a [HandleBuild(b)] that returns without error:
    if the stored [ActiveBuild] and [DoneBuild] have the same name, then
    [ActiveBuild] is the sentinel [{phase: New}].  When [b] is active,
    [DoneBuild] is left as it was, and either the name of [b] is the name
    of [DoneBuild] and the stored [ActiveBuild] is the sentinel, whether
    that common name is empty or not, or the names differ and the stored
    [ActiveBuild] has the phase and the name of [b]: it is [b] when the
    phase or the name differed from the previous [ActiveBuild]'s, and the
    previous [ActiveBuild] otherwise. *)
Theorem HandleBuild_reset (Phases : gmap string Z) (o : Object)
    (oc oc1 : controllerImpl) :
  HandleBuild Phases o oc = (None, oc1) ->
  let b := o_Object o in
  let ns := Namespace (b_Metadata b) in
  let u0 := stored (registered ns oc) ns in
  let u1 := stored oc1 ns in
  (Name (b_Metadata (ActiveBuild u1)) = Name (b_Metadata (DoneBuild u1)) ->
   ActiveBuild u1 = sentinelBuild)
  /\ (isActive Phases b = true ->
      DoneBuild u1 = DoneBuild u0
      /\ (if bool_decide (Name (b_Metadata b) = Name (b_Metadata (DoneBuild u0)))
          then ActiveBuild u1 = sentinelBuild
          else Phase (b_Status (ActiveBuild u1)) = Phase (b_Status b)
               /\ Name (b_Metadata (ActiveBuild u1)) = Name (b_Metadata b)
               /\ ActiveBuild u1 =
                    (if differs (ActiveBuild u0) b then b else ActiveBuild u0))).
Proof.
  intros H b ns u0 u1.
  destruct (HandleBuild_nil _ _ _ _ H) as [_ Hoc1]. fold b ns in Hoc1.
  fold u0 in Hoc1. subst u1. rewrite Hoc1, stored_commit. split.
  - apply buildUser_reset.
  - intros Ha. rewrite Ha. apply buildUser_active.
Qed.

(** The repeated event of scenario 3: build [b-1] is running, and the event
    arrives twice. *)
Lemma HandleBuild_repeated_witness :
  exists oc2,
    HandleBuild examplePhases (exampleBuild "alice" "b-1" "Running") afterFirstBuild
    = (None, oc2)
    /\ oc2 = afterFirstBuild.
Proof.
  destruct (HandleBuild_repeated examplePhases (exampleBuild "alice" "b-1" "Running")
              emptyController afterFirstBuild eq_refl)
    as (oc2 & H2 & _ & _ & Hsilent).
  exists oc2. split; [exact H2 | apply Hsilent; vm_compute; reflexivity].
Defined.

(** C1 fails as stated: once [b-1] has completed, an event that shows it
    running again is stored, reset and notified twice by every call. *)
Lemma HandleBuild_repeated_counterexample :
  let o := exampleBuild "alice" "b-1" "Running" in
  let oc1 := snd (HandleBuild examplePhases o afterBuildFinished) in
  let oc2 := snd (HandleBuild examplePhases o oc1) in
  fst (HandleBuild examplePhases o afterBuildFinished) = None
  /\ fst (HandleBuild examplePhases o oc1) = None
  /\ length (offered afterBuildFinished "alice") = 3%nat
  /\ length (offered oc1 "alice") = 5%nat
  /\ length (offered oc2 "alice") = 7%nat.
Proof. vm_compute. repeat split. Qed.

Lemma HandleBuild_not_active_witness :
  DoneBuild (stored afterBuildFinished "alice")
  = o_Object (exampleBuild "alice" "b-1" "Complete")
  /\ ActiveBuild (stored afterBuildFinished "alice") = sentinelBuild.
Proof.
  destruct (HandleBuild_not_active examplePhases (exampleBuild "alice" "b-1" "Complete")
              afterFirstBuild afterBuildFinished eq_refl eq_refl)
    as (Hd & _ & _ & Ha).
  split; [exact Hd | exact Ha].
Defined.

(** C3 fails as stated: a build in phase New changes the stored record.
    With a table that does not mark New as active it becomes [DoneBuild];
    with a table that does, it becomes [ActiveBuild]. *)
Lemma HandleBuild_not_active_counterexample :
  let o := exampleBuild "alice" "b-2" "New" in
  let oc1 := snd (HandleBuild examplePhases o afterFirstBuild) in
  let oc1' := snd (HandleBuild (<["New" := 1]> examplePhases) o afterFirstBuild) in
  isActive examplePhases (o_Object o) = false
  /\ DoneBuild (stored afterFirstBuild "alice") = zeroBuild
  /\ DoneBuild (stored oc1 "alice") = o_Object o
  /\ ActiveBuild (stored afterFirstBuild "alice")
     = o_Object (exampleBuild "alice" "b-1" "Running")
  /\ ActiveBuild (stored oc1' "alice") = o_Object o.
Proof. vm_compute. repeat split. Qed.

Lemma HandleBuild_reset_witness :
  ActiveBuild (stored afterFirstBuild "alice")
  = o_Object (exampleBuild "alice" "b-1" "Running").
Proof.
  destruct (HandleBuild_reset examplePhases (exampleBuild "alice" "b-1" "Running")
              emptyController afterFirstBuild eq_refl)
    as (_ & Hactive).
  destruct (Hactive eq_refl) as (_ & Hb).
  exact (proj2 (proj2 Hb)).
Defined.

(** C4 fails as stated.  With an empty common name the reset fires: on a
    new user, whose [DoneBuild] has the empty name, an active build with
    the empty name is stored and at once replaced by the sentinel, with two
    snapshots sent.  And after an active build whose name is [DoneBuild]'s,
    the stored [ActiveBuild] is not the build, and its name, now empty, is
    not [DoneBuild]'s. *)
Lemma HandleBuild_reset_counterexample :
  let o := exampleBuild "alice" EmptyString "Running" in
  let oc1 := snd (HandleBuild examplePhases o emptyController) in
  let o' := exampleBuild "alice" "b-1" "Running" in
  let oc2 := snd (HandleBuild examplePhases o' afterBuildFinished) in
  (isActive examplePhases (o_Object o) = true
   /\ fst (HandleBuild examplePhases o emptyController) = None
   /\ ActiveBuild (stored oc1 "alice") = sentinelBuild
   /\ length (offered oc1 "alice") = 2%nat)
  /\ (isActive examplePhases (o_Object o') = true
      /\ fst (HandleBuild examplePhases o' afterBuildFinished) = None
      /\ ActiveBuild (stored oc2 "alice") <> o_Object o'
      /\ Name (b_Metadata (ActiveBuild (stored oc2 "alice")))
         <> Name (b_Metadata (DoneBuild (stored oc2 "alice")))).
Proof. vm_compute. repeat split; discriminate. Qed.

End HandleBuildClaims.

(** ** [createIfNotExist] *)

Section CreateClaims.
Import model openshift props.

(** C5.  For a namespace that is not in the registry, [createIfNotExist]
    asks the tenant directory.  It returns an error exactly when the call
    fails, when the directory reports more than one tenant
    ([Meta.TotalCount > 1]) or when it returns no tenant ([Data] is empty),
    and then the registry is unchanged: no user record, no channel, no
    idler.  Otherwise the first tenant returned gives the id of the new
    user, which is stored, and its idler is started with its channel
    registered. *)
Theorem createIfNotExist_resolution (ns : string) (oc : controllerImpl) :
  users oc !! ns = None ->
  let res := tenant.GetTenantInfoByNamespace (tenant oc) (apiURL oc) ns in
  let err := fst (createIfNotExist ns oc) in
  let oc1 := snd (createIfNotExist ns oc) in
  (is_Some err <->
     match res with
     | inl _ => True
     | inr ti => tenant.TotalCount ti > 1 \/ tenant.Data ti = []
     end)
  /\ (is_Some err -> oc1 = oc)
  /\ (err = None ->
      exists ti d rest,
        res = inr ti /\ tenant.Data ti = d :: rest
        /\ users oc1 = <[ns := NewUser (tenant.ti_ID d) ns]> (users oc)
        /\ ID (stored oc1 ns) = tenant.ti_ID d
        /\ userChannels oc1 = <[ns := []]> (userChannels oc)
        /\ idlers oc1 = idlers oc ++ [NewUser (tenant.ti_ID d) ns]).
Proof.
  intros Hu res err oc1. subst err oc1 res.
  unfold createIfNotExist, mbind, M_bind, Load. simpl. rewrite Hu.
  destruct (tenant.GetTenantInfoByNamespace _ _ _) as [e|ti]; simpl.
  { split; [|split]; [split; eauto | reflexivity | discriminate]. }
  case_bool_decide as Hc; simpl.
  { split; [|split]; [split; eauto | reflexivity | discriminate]. }
  destruct (tenant.Data ti) as [|d rest] eqn:Hd; simpl.
  { split; [|split]; [split; eauto | reflexivity | discriminate]. }
  split; [|split].
  - split; [intros [? ?]; discriminate | intros [?|?]; [lia | discriminate]].
  - intros [? ?]; discriminate.
  - intros _. exists ti, d, rest. repeat split; [exact Hd|].
    unfold stored, GetUser, userForNamespace, Load, mbind, M_bind, mret, M_ret. simpl.
    now rewrite lookup_insert_eq.
Qed.

Lemma createIfNotExist_resolution_witness :
  ID (stored (snd (createIfNotExist "alice" emptyController)) "alice") = "T-alice".
Proof.
  destruct (createIfNotExist_resolution "alice" emptyController eq_refl)
    as (_ & _ & Hnew).
  destruct (Hnew eq_refl) as (ti & d & rest & Hres & Hd & _ & Hid & _).
  rewrite Hid. vm_compute in Hres. inversion Hres as [Hti]. subst ti.
  simpl in Hd. inversion Hd. reflexivity.
Defined.

End CreateClaims.

(** ** Strings: slices and suffixes *)

Section StringFacts.
Import openshift props.

Lemma append_cons c a b : String c a +:+ b = String c (a +:+ b).
Proof. reflexivity. Qed.

Lemma substring_0_full s : substring 0 (String.length s) s = s.
Proof. induction s as [|c s IH]; simpl; [reflexivity | now rewrite IH]. Qed.

Lemma substring_split (n : nat) s :
  (n <= String.length s)%nat ->
  substring 0 n s +:+ substring n (String.length s - n) s = s.
Proof.
  revert n. induction s as [|c s IH]; intros n Hn; simpl in *.
  - assert (n = 0%nat) by lia. subst. reflexivity.
  - destruct n as [|n]; simpl.
    + now rewrite substring_0_full.
    + rewrite append_cons, IH by lia. reflexivity.
Qed.


Lemma length_append a b : String.length (a +:+ b) = (String.length a + String.length b)%nat.
Proof.
  induction a as [|c a IH]; [reflexivity|].
  rewrite append_cons. simpl. now rewrite IH.
Qed.

Lemma substring_skip_app a b :
  substring (String.length a) (String.length b) (a +:+ b) = b.
Proof.
  induction a as [|c a IH]; [apply substring_0_full|].
  rewrite append_cons. simpl. exact IH.
Qed.


Lemma userNamespaceOf_some dcns :
  len jenkinsNamespaceSuffix <= len dcns ->
  userNamespaceOf dcns
  = Some (substring 0 (String.length dcns - String.length jenkinsNamespaceSuffix) dcns).
Proof.
  intros H. unfold userNamespaceOf, slice_to.
  rewrite bool_decide_eq_true_2 by (unfold len in *; lia).
  do 2 f_equal. unfold len. lia.
Qed.


Lemma HasSuffix_true s suffix :
  HasSuffix s suffix = true <->
  substring 0 (String.length s - String.length suffix) s +:+ suffix = s.
Proof.
  unfold HasSuffix. rewrite andb_true_iff, !bool_decide_eq_true. split.
  - intros [Hl Hs].
    pose proof (substring_split (String.length s - String.length suffix) s ltac:(lia)) as E.
    replace (String.length s - (String.length s - String.length suffix))%nat
      with (String.length suffix) in E by lia.
    now rewrite Hs in E.
  - intros E.
    set (p := substring 0 (String.length s - String.length suffix) s) in *.
    pose proof (f_equal String.length E) as Hl. rewrite length_append in Hl.
    split; [lia|].
    replace (String.length s - String.length suffix)%nat with (String.length p) by lia.
    transitivity (substring (String.length p) (String.length suffix) (p +:+ suffix));
      [now rewrite E | apply substring_skip_app].
Qed.

End StringFacts.

(** ** [HandleDeploymentConfig] *)

Section DeploymentConfigClaims.
Import model openshift props.

(** The body of [HandleDeploymentConfig] in one step, when the slice does
    not panic. *)
Lemma HandleDeploymentConfig_char now dc oc ns :
  userNamespaceOf (Namespace (dc_Metadata (dc_Object dc))) = Some ns ->
  HandleDeploymentConfig now dc oc =
    match createIfNotExist ns oc with
    | (Some e, oc1) => (Returned (Some e), oc1)
    | (None, oc1) =>
        match GetByType (dc_Status (dc_Object dc)) availableCond with
        | inl e => (Returned (Some e), oc1)
        | inr c =>
            let '(r, u, sent) := dcUpdate now (dc_Object dc) c (stored oc1 ns) in
            (r, commit ns u sent oc1)
        end
    end.
Proof.
  intros Hns. unfold HandleDeploymentConfig. rewrite Hns.
  unfold mbind at 1. unfold M_bind at 1.
  destruct (createIfNotExist ns oc) as [[e|] oc1] eqn:Hc; [reflexivity|].
  destruct (createIfNotExist_nil _ _ _ Hc) as [u0 Hu0].
  unfold mbind at 1. unfold M_bind at 1.
  replace (userForNamespace ns oc1) with (u0, oc1)
    by (unfold userForNamespace, Load, mbind, M_bind, mret, M_ret; simpl; now rewrite Hu0).
  rewrite (stored_lookup _ _ _ Hu0).
  destruct (GetByType _ _) as [e|c]; [reflexivity|].
  unfold dcUpdate. fold (rollout (dc_Object dc)).
  unfold mbind, M_bind, mret, M_ret.
  destruct oc1 as [us chs ids url t]. simpl in *.
  unfold commit, sendUserToIdler, Store. simpl.
  destruct (chs !! ns) as [ch|] eqn:Hch;
    destruct (rollout (dc_Object dc)); simpl;
    rewrite ?lookup_insert_eq, ?Hch; simpl;
    (destruct (ParseBool (c_Status c)) as [e|[|]]; simpl;
     rewrite ?lookup_insert_eq, ?Hch; simpl;
     rewrite ?insert_insert_eq, ?app_nil_r, <- ?app_assoc; simpl;
     rewrite ?(insert_id us ns u0), ?(insert_id chs ns ch); auto).
Qed.

Lemma createIfNotExist_other ns oc k :
  k <> ns -> users (snd (createIfNotExist ns oc)) !! k = users oc !! k.
Proof.
  intros Hk.
  destruct (createIfNotExist_cases ns oc) as [[_ E]|[[_ [e E]]|[_ [id E]]]];
    rewrite E; simpl; auto.
  now rewrite lookup_insert_ne.
Qed.

Lemma HandleDeploymentConfig_other now dc oc ns k :
  userNamespaceOf (Namespace (dc_Metadata (dc_Object dc))) = Some ns ->
  k <> ns ->
  users (snd (HandleDeploymentConfig now dc oc)) !! k = users oc !! k.
Proof.
  intros Hns Hk. rewrite (HandleDeploymentConfig_char _ _ _ _ Hns).
  pose proof (createIfNotExist_other ns oc k Hk) as Hc.
  destruct (createIfNotExist ns oc) as [[e|] oc1]; simpl in *; [exact Hc|].
  destruct (GetByType _ _) as [e|c]; simpl; [exact Hc|].
  destruct (dcUpdate _ _ _ _) as [[r u] sent]. simpl.
  now rewrite lookup_insert_ne.
Qed.

Lemma HandleDeploymentConfig_no_panic now dc oc ns :
  userNamespaceOf (Namespace (dc_Metadata (dc_Object dc))) = Some ns ->
  exists err, fst (HandleDeploymentConfig now dc oc) = Returned err.
Proof.
  intros Hns. rewrite (HandleDeploymentConfig_char _ _ _ _ Hns).
  destruct (createIfNotExist ns oc) as [[e|] oc1]; simpl; [eauto|].
  destruct (GetByType _ _) as [e|c]; simpl; [eauto|].
  unfold dcUpdate. destruct (rollout _); destruct (ParseBool _) as [e|[|]]; simpl; eauto.
Qed.

Lemma HandleDeploymentConfig_registers now dc oc ns :
  userNamespaceOf (Namespace (dc_Metadata (dc_Object dc))) = Some ns ->
  fst (HandleDeploymentConfig now dc oc) = Returned None ->
  is_Some (users (snd (HandleDeploymentConfig now dc oc)) !! ns).
Proof.
  intros Hns. rewrite (HandleDeploymentConfig_char _ _ _ _ Hns).
  destruct (createIfNotExist ns oc) as [[e|] oc1] eqn:Hc; simpl; [discriminate|].
  destruct (GetByType _ _) as [e|c]; simpl; [discriminate|].
  destruct (dcUpdate _ _ _ _) as [[r u] sent]. simpl. intros _.
  rewrite lookup_insert_eq. eauto.
Qed.

(** C2, as amended.  For a deployment-config event whose namespace is long
    enough for the slice and that is malformed, [HandleDeploymentConfig]
    returns an error.  When the [Available] condition is missing, or when
    its status does not parse and the rollout test is false, the call
    writes no field and sends nothing: it leaves the registry as
    [createIfNotExist] left it, which is unchanged for a namespace that is
    registered. *)
Theorem HandleDeploymentConfig_malformed (now : Time) (dc : DCObject)
    (oc : controllerImpl) (ns : string) :
  userNamespaceOf (Namespace (dc_Metadata (dc_Object dc))) = Some ns ->
  missingAvailable (dc_Object dc) || unparseableStatus (dc_Object dc) = true ->
  let ocr := registered ns oc in
  (exists e, fst (HandleDeploymentConfig now dc oc) = Returned (Some e))
  /\ (is_Some (users oc !! ns) -> ocr = oc)
  /\ (missingAvailable (dc_Object dc) = true \/ rollout (dc_Object dc) = false ->
      snd (HandleDeploymentConfig now dc oc) = ocr).
Proof.
  intros Hns Hmal ocr. subst ocr. unfold registered.
  rewrite (HandleDeploymentConfig_char _ _ _ _ Hns).
  unfold missingAvailable, unparseableStatus in *.
  split; [|split].
  - destruct (createIfNotExist ns oc) as [[e|] oc1]; simpl; [eauto|].
    destruct (GetByType _ _) as [e|c]; simpl; [eauto|].
    unfold dcUpdate. destruct (ParseBool _) as [e|st]; [|discriminate].
    destruct (rollout _); simpl; eauto.
  - intros [u0 Hu0]. now rewrite (createIfNotExist_known _ _ _ Hu0).
  - intros Hcase.
    destruct (createIfNotExist ns oc) as [[e|] oc1] eqn:Hc; simpl; [reflexivity|].
    destruct (createIfNotExist_nil _ _ _ Hc) as [u0 Hu0].
    destruct (GetByType _ _) as [e|c]; simpl; [reflexivity|].
    destruct Hcase as [?|Hr]; [discriminate|].
    unfold dcUpdate. rewrite Hr.
    destruct (ParseBool _) as [e|st]; [|discriminate]. simpl.
    apply commit_nothing. now rewrite (stored_lookup _ _ _ Hu0).
Qed.

(** An event of a registered namespace without any condition. *)
Lemma HandleDeploymentConfig_malformed_witness :
  snd (HandleDeploymentConfig 100 (exampleDC "alice-jenkins" 4 4 1 0 []) afterFirstBuild)
  = afterFirstBuild.
Proof.
  destruct (HandleDeploymentConfig_malformed 100 (exampleDC "alice-jenkins" 4 4 1 0 [])
              afterFirstBuild "alice" eq_refl eq_refl)
    as (_ & Hknown & Hsame).
  rewrite (Hsame (or_introl eq_refl)). apply Hknown. vm_compute. eauto.
Defined.

(** C2 fails as stated: a rollout event whose [Available] status does not
    parse is rejected with an error after [JenkinsLastUpdate] has been
    written and a snapshot sent. *)
Lemma HandleDeploymentConfig_malformed_counterexample :
  let dc := exampleDC "alice-jenkins" 5 4 1 0
              [ {| c_Type := "Available"; c_Status := "maybe"; c_LastUpdateTime := 7 |} ] in
  let oc1 := snd (HandleDeploymentConfig 100 dc afterFirstBuild) in
  fst (HandleDeploymentConfig 100 dc afterFirstBuild) = Returned (Some (ErrParseBool "maybe"))
  /\ JenkinsLastUpdate (stored afterFirstBuild "alice") = 0
  /\ JenkinsLastUpdate (stored oc1 "alice") = 100
  /\ length (offered afterFirstBuild "alice") = 1%nat
  /\ length (offered oc1 "alice") = 2%nat.
Proof. vm_compute. repeat split. Qed.

(** C9, as amended.  For a deployment-config event whose namespace ends in
    [-jenkins], [HandleDeploymentConfig] works on the namespace without the
    suffix: the slice yields a namespace that gives back the event's
    namespace when the suffix is appended, the call returns (it does not
    panic), it registers that namespace when it returns without error, and
    it leaves the records of all other namespaces alone. *)
Theorem userNamespace_roundtrip (now : Time) (dc : DCObject) (oc : controllerImpl) :
  let dcns := Namespace (dc_Metadata (dc_Object dc)) in
  HasSuffix dcns jenkinsNamespaceSuffix = true ->
  exists ns,
    userNamespaceOf dcns = Some ns
    /\ ns +:+ jenkinsNamespaceSuffix = dcns
    /\ (exists err, fst (HandleDeploymentConfig now dc oc) = Returned err)
    /\ (fst (HandleDeploymentConfig now dc oc) = Returned None ->
        is_Some (users (snd (HandleDeploymentConfig now dc oc)) !! ns))
    /\ (forall k, k <> ns ->
        users (snd (HandleDeploymentConfig now dc oc)) !! k = users oc !! k).
Proof.
  intros dcns Hs.
  assert (Hlen : len jenkinsNamespaceSuffix <= len dcns).
  { unfold HasSuffix in Hs. apply andb_true_iff in Hs as [Hl _].
    apply bool_decide_eq_true in Hl. unfold len. lia. }
  pose proof (userNamespaceOf_some dcns Hlen) as Hns.
  eexists. split; [exact Hns|]. split; [now apply HasSuffix_true|].
  split; [|split].
  - eapply HandleDeploymentConfig_no_panic; eauto.
  - eapply HandleDeploymentConfig_registers; eauto.
  - intros k Hk. eapply HandleDeploymentConfig_other; eauto.
Qed.

Lemma userNamespace_roundtrip_witness :
  exists ns,
    userNamespaceOf "alice-jenkins" = Some ns /\ ns +:+ "-jenkins" = "alice-jenkins".
Proof.
  destruct (userNamespace_roundtrip 100 (exampleDC "alice-jenkins" 4 4 1 0 [])
              emptyController eq_refl)
    as (ns & Hns & Hback & _).
  exists ns. split; [exact Hns | exact Hback].
Defined.

(** C9 fails as stated: a namespace that does not end in the suffix loses
    its last eight bytes and does not come back, and a shorter one makes
    the handler panic. *)
Lemma userNamespace_roundtrip_counterexample :
  userNamespaceOf "alice-production" = Some "alice-pr"
  /\ "alice-pr" +:+ jenkinsNamespaceSuffix <> "alice-production"
  /\ fst (HandleDeploymentConfig 100 (exampleDC "bob" 4 4 1 0 []) emptyController)
     = Panicked.
Proof. vm_compute. repeat split. discriminate. Qed.



End DeploymentConfigClaims.

(** ** The control plane *)

Section ApiFacts.
Import model api apiprops.

Lemma requestCalls_app api api' new :
  calls api' = calls api ++ new -> requestCalls api api' = new.
Proof. intros E. unfold requestCalls. rewrite E. apply drop_app_length. Qed.

Lemma calls_logCall ev api : calls (logCall ev api) = calls api ++ [ev].
Proof. reflexivity. Qed.

Lemma unidleCalls_events url token ns rs :
  unidleCalls (map (unidleEvent url token ns) rs) = rs.
Proof.
  induction rs as [|[svc res] rs IH]; [reflexivity|].
  unfold unidleCalls in *. simpl. f_equal. exact IH.
Qed.

Lemma getURLAndToken_reads r api : snd (getURLAndToken r api) = api.
Proof.
  unfold getURLAndToken. destruct (Query r !! _) as [[|u ?]|]; try reflexivity.
  destruct (cluster.GetToken _ _); reflexivity.
Qed.

Lemma getURLAndToken_pair r api :
  getURLAndToken r api = (fst (getURLAndToken r api), api).
Proof. rewrite <- (getURLAndToken_reads r api) at 3. now destruct (getURLAndToken r api). Qed.

(** [UnIdle] with a known cluster, step by step. *)
Lemma UnIdle_unfold TrimSpace JenkinsServices r ps api url token :
  fst (getURLAndToken r api) = inr (url, token) ->
  let ns := TrimSpace (ByName ps "namespace") in
  let sres := client.State (openShiftClient api) (calls api) url token ns "jenkins" in
  let api1 := logCall (EvState url token ns "jenkins" sres) api in
  let cres := tenantsvc.HasReachedMaxCapacity (tenantService api1) (calls api1) url ns in
  let api2 := logCall (EvHasReachedMaxCapacity url ns cres) api1 in
  UnIdle TrimSpace JenkinsServices r ps api =
    if bool_decide (ns = EmptyString) then
      (respondWithError StatusBadRequest ErrNamespaceMissing, api)
    else
      match sres with
      | inl e => (respondWithError StatusInternalServerError e, api1)
      | inr st =>
          if bool_decide (st = PodStarting) || bool_decide (st = PodRunning) then
            (WriteHeader StatusOK, api1)
          else
            match cres with
            | inl e => (respondWithError StatusInternalServerError e, api2)
            | inr true =>
                (respondWithError StatusServiceUnavailable (ErrMaxCapacity url ns), api2)
            | inr false =>
                match unidleServices url token ns JenkinsServices api2 with
                | (Some e, api3) => (respondWithError StatusInternalServerError e, api3)
                | (None, api3) => (WriteHeader StatusOK, api3)
                end
            end
      end.
Proof.
  intros Hut ns sres api1 cres api2.
  unfold UnIdle. unfold mbind at 1. unfold H_bind at 1.
  rewrite (getURLAndToken_pair r api), Hut. fold ns.
  destruct (bool_decide (ns = EmptyString)); [reflexivity|].
  unfold isJenkinsUnIdled, callState, mbind, H_bind, mret, H_ret. fold sres. fold api1.
  destruct sres as [e|st]; [reflexivity|].
  destruct (bool_decide (st = PodStarting) || bool_decide (st = PodRunning)); [reflexivity|].
  unfold callHasReachedMaxCapacity. fold cres. fold api2.
  destruct cres as [e|[|]]; try reflexivity.
  destruct (unidleServices _ _ _ _ _) as [[e|] api3]; reflexivity.
Qed.

(** The loop over the services: the calls it logs are [UnIdle] calls for an
    initial segment of the services, each with the answer of the platform;
    either it returns [nil], having gone through all the services with
    success, or it returns the error of its last call, the only one that
    failed. *)
Lemma unidleServices_run url token ns services api :
  exists rs,
    calls (snd (unidleServices url token ns services api))
    = calls api ++ map (unidleEvent url token ns) rs
    /\ disabledUsers (snd (unidleServices url token ns services api)) = disabledUsers api
    /\ map fst rs `prefix_of` services
    /\ unidleAnswered api (calls api) url token ns rs
    /\ ((fst (unidleServices url token ns services api) = None
         /\ map fst rs = services
         /\ Forall (fun c => snd c = None) rs)
        \/ (exists rs' service e,
              fst (unidleServices url token ns services api) = Some e
              /\ rs = rs' ++ [(service, Some e)]
              /\ Forall (fun c => snd c = None) rs')).
Proof.
  revert api. induction services as [|service rest IH]; intros api.
  - exists []. simpl. rewrite app_nil_r. split; [reflexivity|]. split; [reflexivity|].
    split; [reflexivity|]. split; [intros i c Hc; now rewrite lookup_nil in Hc|].
    left. auto.
  - simpl. unfold mbind, H_bind, callUnIdle.
    destruct (client.UnIdle (openShiftClient api) (calls api) url token ns service)
      as [e|] eqn:Hres.
    + exists [(service, Some e)]. simpl. split; [reflexivity|]. split; [reflexivity|].
      split; [exists rest; reflexivity|]. split.
      * intros [|i] c Hc; simpl in Hc; [|now rewrite lookup_nil in Hc].
        injection Hc as <-. simpl. now rewrite app_nil_r, Hres.
      * right. exists [], service, e. auto.
    + destruct (IH (logCall (EvUnIdle url token ns service None) api))
        as (rs & Hcalls & Hdis & Hpre & Hans & Hend).
      exists ((service, None) :: rs). split; [|split; [|split; [|split]]].
      * rewrite Hcalls. simpl. now rewrite <- app_assoc.
      * exact Hdis.
      * simpl. now apply prefix_cons.
      * intros [|i] c Hc; simpl in Hc.
        -- injection Hc as <-. simpl. now rewrite app_nil_r, Hres.
        -- specialize (Hans i c Hc). simpl in Hans. simpl.
           rewrite <- app_assoc in Hans. exact Hans.
      * destruct Hend as [(Hn & Hall & Hnone)|(rs' & svc & e & He & -> & Hnone)].
        -- left. split; [exact Hn|]. split; [simpl; now rewrite Hall | now constructor].
        -- right. exists ((service, None) :: rs'), svc, e.
           split; [exact He|]. split; [reflexivity | now constructor].
Qed.

(** C6, as amended.  For an unidle request whose cluster URL is known,
    whose namespace is not blank once trimmed, and for which the platform
    answers the read of the pod state: if the state is Starting or Running,
    the handler answers 200 and the read is its only call (no capacity
    check, no [UnIdle]).  Otherwise, when the tenant directory answers the
    capacity check: if the cluster is full, the handler answers 503 with an
    error body and has made no [UnIdle] call; if it is not, the handler
    calls [UnIdle] for the Jenkins services in order, each call being
    answered by the platform, and stops at the first call that fails:
    either it has called every service, every call has succeeded and the
    answer is 200, or the last call made has failed, all calls before it
    have succeeded, no further service is called and the answer is 500 with
    the error of that call. *)
Theorem UnIdle_conditional (TrimSpace : string -> string)
    (JenkinsServices : list string) (r : Request) (ps : Params) (api : idler)
    (url token : string) (st : PodState) :
  fst (getURLAndToken r api) = inr (url, token) ->
  let ns := TrimSpace (ByName ps "namespace") in
  ns <> EmptyString ->
  client.State (openShiftClient api) (calls api) url token ns "jenkins" = inr st ->
  let api1 := logCall (EvState url token ns "jenkins" (inr st)) api in
  let result := UnIdle TrimSpace JenkinsServices r ps api in
  if bool_decide (st = PodStarting) || bool_decide (st = PodRunning) then
    result = (WriteHeader StatusOK, api1)
  else
    forall full,
      tenantsvc.HasReachedMaxCapacity (tenantService api) (calls api1) url ns = inr full ->
      let api2 := logCall (EvHasReachedMaxCapacity url ns (inr full)) api1 in
      if full then
        result = (respondWithError StatusServiceUnavailable (ErrMaxCapacity url ns), api2)
      else
        exists rs,
          calls (snd result) = calls api2 ++ map (unidleEvent url token ns) rs
          /\ disabledUsers (snd result) = disabledUsers api
          /\ map fst rs `prefix_of` JenkinsServices
          /\ unidleAnswered api (calls api2) url token ns rs
          /\ ((fst result = WriteHeader StatusOK
               /\ map fst rs = JenkinsServices
               /\ Forall (fun c => snd c = None) rs)
              \/ (exists rs' service e,
                    rs = rs' ++ [(service, Some e)]
                    /\ Forall (fun c => snd c = None) rs'
                    /\ fst result = respondWithError StatusInternalServerError e)).
Proof.
  intros Hut ns Hblank Hst api1 result.
  pose proof (UnIdle_unfold TrimSpace JenkinsServices r ps api url token Hut) as HU.
  cbv zeta in HU. fold ns in HU. fold result in HU.
  rewrite (bool_decide_eq_false_2 (ns = EmptyString)) in HU by exact Hblank.
  rewrite Hst in HU. fold api1 in HU.
  destruct (bool_decide (st = PodStarting) || bool_decide (st = PodRunning));
    [exact HU|].
  intros full Hfull api2.
  change (tenantService api1) with (tenantService api) in HU.
  rewrite Hfull in HU. fold api2 in HU.
  destruct full; [exact HU|].
  destruct (unidleServices_run url token ns JenkinsServices api2)
    as (rs & Hcalls & Hdis & Hpre & Hans & Hend).
  destruct (unidleServices url token ns JenkinsServices api2) as [err api3].
  simpl in Hcalls, Hdis, Hend.
  exists rs.
  destruct Hend as [(-> & Hall & Hnone)|(rs' & svc & e & -> & -> & Hnone)];
    rewrite HU; simpl;
    (split; [exact Hcalls|]; split; [exact Hdis|]; split; [exact Hpre|];
     split; [exact Hans|]).
  - left. auto.
  - right. exists rs', svc, e. auto.
Qed.

(** A request for an idle Jenkins in a cluster with room: both services are
    unidled. *)
Lemma UnIdle_conditional_witness :
  fst (UnIdle asciiTrimSpace exampleServices (exampleRequest noBody)
         [("namespace", "bob")] (exampleIdler PodIdled false ∅))
  = WriteHeader StatusOK.
Proof.
  pose proof (UnIdle_conditional asciiTrimSpace exampleServices
                (exampleRequest noBody) [("namespace", "bob")]
                (exampleIdler PodIdled false ∅) "https://cluster.example" "token"
                PodIdled eq_refl ltac:(vm_compute; discriminate) eq_refl) as H.
  simpl in H. specialize (H false eq_refl).
  destruct H as (rs & _ & _ & _ & Hans & [(Hok & _)|(rs' & svc & e & -> & _ & _)]).
  - exact Hok.
  - specialize (Hans (length rs') (svc, Some e) (list_lookup_middle _ _ _ _ eq_refl)).
    simpl in Hans. discriminate Hans.
Defined.

(** C6 fails as stated.  When [UnIdle] fails for the first of two services,
    the handler answers 500 and never calls [UnIdle] for the second.  And a
    request with a known cluster whose namespace is blank is answered 400
    without any call, although the platform would report Running. *)
Lemma UnIdle_conditional_counterexample :
  let failed :=
    UnIdle asciiTrimSpace exampleServices (exampleRequest noBody)
      [("namespace", "bob")] (failingIdler PodIdled ["jenkins"]) in
  let blank :=
    UnIdle asciiTrimSpace exampleServices (exampleRequest noBody)
      [("namespace", " ")] (exampleIdler PodRunning false ∅) in
  (calls (snd failed)
   = [EvState "https://cluster.example" "token" "bob" "jenkins" (inr PodIdled);
      EvHasReachedMaxCapacity "https://cluster.example" "bob" (inr false);
      EvUnIdle "https://cluster.example" "token" "bob" "jenkins"
        (Some (ErrExternal "unidle failed"))]
   /\ fst failed
      = respondWithError StatusInternalServerError (ErrExternal "unidle failed"))
  /\ (fst blank = respondWithError StatusBadRequest ErrNamespaceMissing
      /\ calls (snd blank) = []).
Proof. vm_compute. repeat split. Qed.



(** C8.  For a [PUT /users] whose body decodes to [{disable, enable}], the
    handler answers 200, and afterwards an id is in the disabled-users set
    if and only if it was in the set or is listed in [disable], and is not
    listed in [enable]; an id listed in both is not in the set. *)
Theorem SetUserIdlerStatus_precedence (r : Request) (ps : Params) (api : idler)
    (users : userStatus) :
  Body r = inr users ->
  let api' := snd (SetUserIdlerStatus r ps api) in
  fst (SetUserIdlerStatus r ps api) = WriteHeader StatusOK
  /\ (forall id : string,
        id ∈ disabledUsers api' <->
        (id ∈ disabledUsers api \/ id ∈ Disable users) /\ id ∉ Enable users)
  /\ (forall id : string,
        id ∈ Disable users -> id ∈ Enable users -> id ∉ disabledUsers api').
Proof.
  intros Hb api'. subst api'. unfold SetUserIdlerStatus. rewrite Hb. simpl.
  unfold Remove, Add. split; [reflexivity|]. split; intros id.
  - rewrite elem_of_difference, elem_of_union, !elem_of_list_to_set. tauto.
  - intros _ He. rewrite elem_of_difference, !elem_of_list_to_set. tauto.
Qed.

Lemma SetUserIdlerStatus_precedence_witness :
  let api' :=
    snd (SetUserIdlerStatus
           (exampleRequest (inr {| Disable := ["T-alice"; "T-bob"]; Enable := ["T-bob"] |}))
           [] (exampleIdler PodIdled false {[ "T-carol" ]})) in
  ("T-alice" ∈ disabledUsers api')
  /\ ("T-bob" ∉ disabledUsers api')
  /\ ("T-carol" ∈ disabledUsers api').
Proof.
  destruct (SetUserIdlerStatus_precedence
              (exampleRequest (inr {| Disable := ["T-alice"; "T-bob"]; Enable := ["T-bob"] |}))
              [] (exampleIdler PodIdled false {[ "T-carol" ]}) _ eq_refl)
    as (_ & Hiff & Hboth).
  simpl in *. split; [|split].
  - apply Hiff. split; [right; apply list_elem_of_here|].
    intros Hin. apply list_elem_of_singleton in Hin. discriminate.
  - apply Hboth; [apply list_elem_of_further|]; apply list_elem_of_here.
  - apply Hiff. split; [left; now apply elem_of_singleton|].
    intros Hin. apply list_elem_of_singleton in Hin. discriminate.
Defined.

End ApiFacts.

(** ** The supervisor: invariants of the registry *)

Section SupervisorFacts.
Import model openshift props supervisor.

Lemma createIfNotExist_wellFormed ns oc :
  wellFormed oc -> wellFormed (snd (createIfNotExist ns oc)).
Proof.
  intros [Hd Hl].
  destruct (createIfNotExist_cases ns oc) as [[_ E]|[[_ [e E]]|[Hn [id E]]]];
    rewrite E; simpl; [done | done |].
  split; simpl.
  - rewrite !dom_insert_L. now rewrite Hd.
  - rewrite length_app, map_size_insert_None by exact Hn. simpl. lia.
Qed.

Lemma commit_wellFormed ns u0 u sent oc :
  users oc !! ns = Some u0 -> wellFormed oc -> wellFormed (commit ns u sent oc).
Proof.
  intros Hu [Hd Hl]. split; simpl.
  - rewrite dom_insert_lookup_L by eauto.
    destruct (userChannels oc !! ns) as [ch|] eqn:Hc; [|exact Hd].
    rewrite dom_insert_lookup_L by eauto. exact Hd.
  - rewrite map_size_insert_Some by eauto. exact Hl.
Qed.

Lemma HandleBuild_wellFormed Phases o oc :
  wellFormed oc -> wellFormed (snd (HandleBuild Phases o oc)).
Proof.
  intros Hw. rewrite HandleBuild_char.
  pose proof (createIfNotExist_wellFormed (Namespace (b_Metadata (o_Object o))) oc Hw) as Hc.
  destruct (createIfNotExist _ oc) as [[e|] oc1] eqn:E; simpl in *; [exact Hc|].
  destruct (createIfNotExist_nil _ _ _ E) as [u0 Hu0].
  destruct (buildUser _ _ _) as [u sent]. simpl.
  eapply commit_wellFormed; eauto.
Qed.

Lemma HandleDeploymentConfig_wellFormed now dc oc :
  wellFormed oc -> wellFormed (snd (HandleDeploymentConfig now dc oc)).
Proof.
  intros Hw.
  destruct (userNamespaceOf (Namespace (dc_Metadata (dc_Object dc)))) as [ns|] eqn:Hns.
  - rewrite (HandleDeploymentConfig_char _ _ _ _ Hns).
    pose proof (createIfNotExist_wellFormed ns oc Hw) as Hc.
    destruct (createIfNotExist _ oc) as [[e|] oc1] eqn:E; simpl in *; [exact Hc|].
    destruct (createIfNotExist_nil _ _ _ E) as [u0 Hu0].
    destruct (GetByType _ _) as [e|c]; simpl; [exact Hc|].
    destruct (dcUpdate _ _ _ _) as [[r u] sent]. simpl.
    eapply commit_wellFormed; eauto.
  - unfold HandleDeploymentConfig. rewrite Hns. exact Hw.
Qed.

(** X1.  From [NewController] on, whatever events the controller handles,
    in whatever order and with whatever results, the two maps of the
    registry have the same keys and the number of idlers started is the
    number of user records: every namespace that has a record has one
    channel and one idler, and no idler is started twice. *)
Theorem run_wellFormed (Phases : gmap string Z) (url : string) (t : tenant.Tenant)
    (events : list input) :
  wellFormed (run Phases events (NewController url t)).
Proof.
  unfold run.
  assert (H0 : wellFormed (NewController url t)).
  { split; simpl; [now rewrite !dom_empty_L | now rewrite map_size_empty]. }
  revert H0. generalize (NewController url t).
  induction events as [|i events IH]; intros oc Hw; simpl; [exact Hw|].
  apply IH. destruct i; simpl;
    [now apply HandleBuild_wellFormed | now apply HandleDeploymentConfig_wellFormed].
Qed.

Lemma buildUser_frame a b u :
  ID (fst (buildUser a b u)) = ID u
  /\ u_Name (fst (buildUser a b u)) = u_Name u
  /\ JenkinsLastUpdate (fst (buildUser a b u)) = JenkinsLastUpdate u.
Proof.
  unfold buildUser, branchUser, resetUser.
  destruct a; [destruct (differs (ActiveBuild u) b) | destruct (differs (DoneBuild u) b)];
    simpl; destruct (bool_decide _); simpl; auto.
Qed.

Lemma buildUser_sent a b u :
  (length (snd (buildUser a b u)) <= 2)%nat
  /\ (snd (buildUser a b u) = [] -> fst (buildUser a b u) = u)
  /\ (snd (buildUser a b u) <> [] ->
      last (snd (buildUser a b u)) = Some (fst (buildUser a b u))).
Proof.
  unfold buildUser, branchUser, resetUser.
  destruct a; [destruct (differs (ActiveBuild u) b) | destruct (differs (DoneBuild u) b)];
    simpl; destruct (bool_decide _); simpl;
    (split; [lia | split; [intros; congruence | intros; try reflexivity; congruence]]).
Qed.

Lemma dcUpdate_frame now dc c u :
  let u1 := snd (fst (dcUpdate now dc c u)) in
  ID u1 = ID u /\ u_Name u1 = u_Name u
  /\ ActiveBuild u1 = ActiveBuild u /\ DoneBuild u1 = DoneBuild u.
Proof.
  unfold dcUpdate. destruct (rollout dc); destruct (ParseBool _) as [e|[|]]; simpl; auto.
Qed.

Lemma createIfNotExist_keeps ns oc k u :
  users oc !! k = Some u -> users (snd (createIfNotExist ns oc)) !! k = Some u.
Proof.
  intros Hk.
  destruct (createIfNotExist_cases ns oc) as [[_ E]|[[_ [e E]]|[Hn [id E]]]];
    rewrite E; simpl; auto.
  rewrite lookup_insert_ne; [exact Hk | congruence].
Qed.

Lemma createIfNotExist_channel_other ns oc k :
  k <> ns ->
  userChannels (snd (createIfNotExist ns oc)) !! k = userChannels oc !! k.
Proof.
  intros Hk.
  destruct (createIfNotExist_cases ns oc) as [[_ E]|[[_ [e E]]|[_ [id E]]]];
    rewrite E; simpl; auto.
  now rewrite lookup_insert_ne.
Qed.

Lemma commit_other ns u sent oc k :
  k <> ns ->
  users (commit ns u sent oc) !! k = users oc !! k
  /\ userChannels (commit ns u sent oc) !! k = userChannels oc !! k.
Proof.
  intros Hk. unfold commit. simpl. split.
  - now rewrite lookup_insert_ne.
  - destruct (userChannels oc !! ns); [now rewrite lookup_insert_ne | reflexivity].
Qed.

(** What one event does to the record of a namespace that is registered:
    it stays, with its tenant id and its name. *)
Lemma handle_keeps Phases i oc k u :
  users oc !! k = Some u ->
  exists u', users (handle Phases i oc) !! k = Some u'
             /\ ID u' = ID u /\ u_Name u' = u_Name u.
Proof.
  intros Hk.
  assert (Hcommit : forall ns oc1 v sent,
             users oc1 !! k = Some u ->
             (k = ns -> ID v = ID u /\ u_Name v = u_Name u) ->
             exists u', users (commit ns v sent oc1) !! k = Some u'
                        /\ ID u' = ID u /\ u_Name u' = u_Name u).
  { intros ns oc1 v sent H1 Hv. destruct (decide (k = ns)) as [->|Hne].
    - exists v. split; [apply users_commit | now apply Hv].
    - exists u. split; [|done]. now rewrite (proj1 (commit_other ns v sent oc1 k Hne)). }
  destruct i as [o|now dc]; simpl.
  - rewrite HandleBuild_char.
    pose proof (createIfNotExist_keeps (Namespace (b_Metadata (o_Object o))) oc k u Hk) as Hc.
    destruct (createIfNotExist _ oc) as [[e|] oc1]; simpl in *; [eauto|].
    destruct (buildUser _ _ _) as [v sent] eqn:Hb. simpl.
    apply (Hcommit _ _ _ sent); [exact Hc|]. intros Hkn.
    rewrite <- Hkn, (stored_lookup _ _ _ Hc) in Hb.
    pose proof (buildUser_frame (isActive Phases (o_Object o)) (o_Object o) u) as Hf.
    rewrite Hb in Hf. simpl in Hf. tauto.
  - destruct (userNamespaceOf (Namespace (dc_Metadata (dc_Object dc)))) as [ns|] eqn:Hns.
    + rewrite (HandleDeploymentConfig_char _ _ _ _ Hns).
      pose proof (createIfNotExist_keeps ns oc k u Hk) as Hc.
      destruct (createIfNotExist _ oc) as [[e|] oc1]; simpl in *; [eauto|].
      destruct (GetByType _ _) as [e|c]; simpl; [eauto|].
      destruct (dcUpdate _ _ _ _) as [[r v] sent] eqn:Hd. simpl.
      apply (Hcommit _ _ _ sent); [exact Hc|]. intros Hkn.
      rewrite <- Hkn, (stored_lookup _ _ _ Hc) in Hd.
      pose proof (dcUpdate_frame now (dc_Object dc) c u) as Hf.
      rewrite Hd in Hf. simpl in Hf. tauto.
    + unfold HandleDeploymentConfig. rewrite Hns. simpl. eauto.
Qed.

(** X2.  A user record is never removed and never changes identity: a
    namespace that is registered stays registered through any sequence of
    events, with the same tenant id and the same name. *)
Theorem run_keeps_users (Phases : gmap string Z) (events : list input)
    (oc : controllerImpl) (k : string) (u : User) :
  users oc !! k = Some u ->
  exists u', users (run Phases events oc) !! k = Some u'
             /\ ID u' = ID u /\ u_Name u' = u_Name u.
Proof.
  unfold run. revert oc u. induction events as [|i events IH]; intros oc u Hk; simpl.
  - eauto.
  - destruct (handle_keeps Phases i oc k u Hk) as (u1 & H1 & Hid & Hname).
    destruct (IH _ _ H1) as (u' & H' & Hid' & Hname').
    exists u'. split; [exact H'|]. split; congruence.
Qed.

Lemma run_keeps_users_witness :
  exists u',
    users (run examplePhases
             [BuildEvent (exampleBuild "alice" "b-1" "Complete");
              DCEvent 100 (exampleDC "alice-jenkins" 5 4 1 0 [])]
             afterFirstBuild) !! "alice" = Some u'
    /\ ID u' = "T-alice".
Proof.
  destruct (run_keeps_users examplePhases
              [BuildEvent (exampleBuild "alice" "b-1" "Complete");
               DCEvent 100 (exampleDC "alice-jenkins" 5 4 1 0 [])]
              afterFirstBuild "alice" (stored afterFirstBuild "alice") eq_refl)
    as (u' & Hu' & Hid & _).
  exists u'. split; [exact Hu' | exact Hid].
Defined.

(** X3.  An event touches the record and the channel of its own namespace
    only: for every other namespace the stored record and the channel,
    with the snapshots offered on it, are as before.  A deployment-config
    event whose slice panics touches nothing. *)
Theorem handle_isolated (Phases : gmap string Z) (i : input)
    (oc : controllerImpl) (k : string) :
  eventNamespace i <> Some k ->
  users (handle Phases i oc) !! k = users oc !! k
  /\ userChannels (handle Phases i oc) !! k = userChannels oc !! k.
Proof.
  intros Hne.
  assert (Hboth : forall ns, k <> ns ->
             let oc1 := snd (createIfNotExist ns oc) in
             forall v sent,
               (users oc1 !! k = users oc !! k
                /\ userChannels oc1 !! k = userChannels oc !! k)
               /\ (users (commit ns v sent oc1) !! k = users oc !! k
                   /\ userChannels (commit ns v sent oc1) !! k = userChannels oc !! k)).
  { intros ns Hk oc1 v sent. subst oc1.
    pose proof (createIfNotExist_other ns oc k Hk) as Hu.
    pose proof (createIfNotExist_channel_other ns oc k Hk) as Hc.
    destruct (commit_other ns v sent (snd (createIfNotExist ns oc)) k Hk) as [H1 H2].
    rewrite H1, H2. auto. }
  destruct i as [o|now dc]; simpl in *.
  - assert (Hk : k <> Namespace (b_Metadata (o_Object o))) by congruence.
    specialize (Hboth _ Hk). simpl in Hboth. rewrite HandleBuild_char.
    destruct (createIfNotExist _ oc) as [[e|] oc1]; simpl in *.
    + apply (Hboth zeroUser []).
    + destruct (buildUser _ _ _) as [v sent]. apply (Hboth v sent).
  - destruct (userNamespaceOf (Namespace (dc_Metadata (dc_Object dc)))) as [ns|] eqn:Hns.
    + assert (Hk : k <> ns) by congruence.
      specialize (Hboth _ Hk). simpl in Hboth.
      rewrite (HandleDeploymentConfig_char _ _ _ _ Hns).
      destruct (createIfNotExist _ oc) as [[e|] oc1]; simpl in *.
      * apply (Hboth zeroUser []).
      * destruct (GetByType _ _) as [e|c]; simpl; [apply (Hboth zeroUser [])|].
        destruct (dcUpdate _ _ _ _) as [[r v] sent]. apply (Hboth v sent).
    + unfold HandleDeploymentConfig. rewrite Hns. auto.
Qed.

Lemma handle_isolated_witness :
  users (handle examplePhases (BuildEvent (exampleBuild "bob" "b-7" "Running"))
           afterFirstBuild) !! "alice"
  = users afterFirstBuild !! "alice".
Proof.
  apply (handle_isolated examplePhases (BuildEvent (exampleBuild "bob" "b-7" "Running"))
           afterFirstBuild "alice").
  simpl. discriminate.
Defined.

(** X4.  [HandleBuild] fails exactly when [createIfNotExist] fails, with
    the same error; a failing call leaves the registry as it was, and it
    can only happen for a namespace that is not registered: for a
    registered namespace [HandleBuild] always returns [nil]. *)
Theorem HandleBuild_fails_on_resolution (Phases : gmap string Z) (o : Object)
    (oc : controllerImpl) :
  let ns := Namespace (b_Metadata (o_Object o)) in
  fst (HandleBuild Phases o oc) = fst (createIfNotExist ns oc)
  /\ (forall e, fst (HandleBuild Phases o oc) = Some e ->
      snd (HandleBuild Phases o oc) = oc /\ users oc !! ns = None)
  /\ (forall u, users oc !! ns = Some u -> fst (HandleBuild Phases o oc) = None).
Proof.
  intros ns. subst ns. rewrite HandleBuild_char.
  destruct (createIfNotExist_cases (Namespace (b_Metadata (o_Object o))) oc)
    as [[[u Hs] E]|[[Hn [e E]]|[Hn [id E]]]]; rewrite E; simpl.
  - destruct (buildUser _ _ _). simpl. repeat split; congruence.
  - repeat split; congruence.
  - destruct (buildUser _ _ _). simpl. repeat split; congruence.
Qed.

(** X5.  The two handlers write different fields of the record:
    [HandleBuild] leaves [JenkinsLastUpdate] as it was, and
    [HandleDeploymentConfig] leaves [ActiveBuild] and [DoneBuild] as they
    were. *)
Theorem handlers_write_their_fields (Phases : gmap string Z) (o : Object)
    (now : Time) (dc : DCObject) (oc : controllerImpl) (ns : string) :
  (Namespace (b_Metadata (o_Object o)) = ns ->
   JenkinsLastUpdate (stored (snd (HandleBuild Phases o oc)) ns)
   = JenkinsLastUpdate (stored (registered ns oc) ns))
  /\ (userNamespaceOf (Namespace (dc_Metadata (dc_Object dc))) = Some ns ->
      ActiveBuild (stored (snd (HandleDeploymentConfig now dc oc)) ns)
      = ActiveBuild (stored (registered ns oc) ns)
      /\ DoneBuild (stored (snd (HandleDeploymentConfig now dc oc)) ns)
         = DoneBuild (stored (registered ns oc) ns)).
Proof.
  unfold registered. split.
  - intros <-. rewrite HandleBuild_char.
    destruct (createIfNotExist _ oc) as [[e|] oc1]; simpl; [reflexivity|].
    destruct (buildUser _ _ _) as [v sent] eqn:Hb. simpl. rewrite stored_commit.
    pose proof (buildUser_frame (isActive Phases (o_Object o)) (o_Object o)
                  (stored oc1 (Namespace (b_Metadata (o_Object o))))) as Hf.
    rewrite Hb in Hf. simpl in Hf. tauto.
  - intros Hns. rewrite (HandleDeploymentConfig_char _ _ _ _ Hns).
    destruct (createIfNotExist _ oc) as [[e|] oc1]; simpl; [auto|].
    destruct (GetByType _ _) as [e|c]; simpl; [auto|].
    destruct (dcUpdate _ _ _ _) as [[r v] sent] eqn:Hd. simpl. rewrite stored_commit.
    pose proof (dcUpdate_frame now (dc_Object dc) c (stored oc1 ns)) as Hf.
    rewrite Hd in Hf. simpl in Hf. tauto.
Qed.

Lemma wellFormed_channel oc ns u :
  wellFormed oc -> users oc !! ns = Some u -> is_Some (userChannels oc !! ns).
Proof.
  intros [Hd _] Hu. apply elem_of_dom. rewrite <- Hd. apply elem_of_dom. eauto.
Qed.

Lemma offered_commit ns u sent oc :
  is_Some (userChannels oc !! ns) ->
  offered (commit ns u sent oc) ns = offered oc ns ++ sent.
Proof.
  intros [ch Hc]. unfold offered, commit. simpl. rewrite Hc. simpl.
  now rewrite lookup_insert_eq.
Qed.

(** X6.  In a registry in which every record has its channel, a
    [HandleBuild] that returns [nil] offers at most two snapshots on the
    channel of the namespace.  If it offers none, it has changed nothing;
    if it offers some, the last one is the record that is stored when the
    call returns: every store is followed by the send of what was
    stored. *)
Theorem HandleBuild_snapshots (Phases : gmap string Z) (o : Object)
    (oc oc1 : controllerImpl) :
  wellFormed oc ->
  HandleBuild Phases o oc = (None, oc1) ->
  let ns := Namespace (b_Metadata (o_Object o)) in
  exists sent,
    offered oc1 ns = offered (registered ns oc) ns ++ sent
    /\ (length sent <= 2)%nat
    /\ (sent = [] -> oc1 = registered ns oc)
    /\ (sent <> [] -> last sent = Some (stored oc1 ns)).
Proof.
  intros Hw H ns.
  destruct (HandleBuild_nil _ _ _ _ H) as [Hc Hoc1]. fold ns in Hc, Hoc1.
  pose proof (createIfNotExist_wellFormed ns oc Hw) as Hw1.
  fold (registered ns oc) in Hw1.
  set (ocr := registered ns oc) in *.
  destruct (createIfNotExist_nil _ _ _ Hc) as [u0 Hu0].
  pose proof (wellFormed_channel _ _ _ Hw1 Hu0) as Hch.
  rewrite (stored_lookup _ _ _ Hu0) in Hoc1.
  destruct (buildUser_sent (isActive Phases (o_Object o)) (o_Object o) u0)
    as (Hlen & Hnone & Hlast).
  exists (snd (buildUser (isActive Phases (o_Object o)) (o_Object o) u0)).
  rewrite Hoc1. split; [now apply offered_commit|]. split; [exact Hlen|]. split.
  - intros Hs. rewrite Hs, (Hnone Hs). now apply commit_nothing.
  - intros Hs. rewrite stored_commit. now apply Hlast.
Qed.

Lemma HandleBuild_snapshots_witness :
  exists sent,
    offered afterBuildFinished "alice" = offered afterFirstBuild "alice" ++ sent
    /\ (length sent <= 2)%nat.
Proof.
  assert (Hw : wellFormed afterFirstBuild) by (split; vm_compute; reflexivity).
  destruct (HandleBuild_snapshots examplePhases (exampleBuild "alice" "b-1" "Complete")
              afterFirstBuild afterBuildFinished Hw eq_refl)
    as (sent & Hoff & Hlen & _).
  exists sent. split; [exact Hoff | exact Hlen].
Defined.

(** X7.  The completion of the active build: when a build that is not
    active arrives with the name of the stored [ActiveBuild], and its phase
    or its name differs from the stored [DoneBuild]'s, [HandleBuild] sends
    two snapshots, the first with the build as [DoneBuild] and the old
    [ActiveBuild] still in place, the second with [ActiveBuild] reset to
    the sentinel, which is the record stored. *)
Theorem HandleBuild_completion (Phases : gmap string Z) (o : Object)
    (oc : controllerImpl) (u : User) :
  let b := o_Object o in
  let ns := Namespace (b_Metadata b) in
  users oc !! ns = Some u ->
  is_Some (userChannels oc !! ns) ->
  isActive Phases b = false ->
  Name (b_Metadata (ActiveBuild u)) = Name (b_Metadata b) ->
  differs (DoneBuild u) b = true ->
  fst (HandleBuild Phases o oc) = None
  /\ stored (snd (HandleBuild Phases o oc)) ns
     = withActiveBuild (withDoneBuild u b) sentinelBuild
  /\ offered (snd (HandleBuild Phases o oc)) ns
     = offered oc ns ++ [withDoneBuild u b;
                         withActiveBuild (withDoneBuild u b) sentinelBuild].
Proof.
  intros b ns Hu Hch Ha Hname Hd.
  rewrite HandleBuild_char. fold b ns.
  rewrite (createIfNotExist_known ns oc u Hu), (stored_lookup _ _ _ Hu), Ha.
  unfold buildUser, branchUser, resetUser. rewrite Hd. simpl.
  rewrite bool_decide_eq_true_2 by exact Hname. simpl.
  split; [reflexivity|]. split; [apply stored_commit | now apply offered_commit].
Qed.

Lemma HandleBuild_completion_witness :
  stored afterBuildFinished "alice"
  = withActiveBuild
      (withDoneBuild (stored afterFirstBuild "alice")
         (o_Object (exampleBuild "alice" "b-1" "Complete")))
      sentinelBuild.
Proof.
  destruct (HandleBuild_completion examplePhases (exampleBuild "alice" "b-1" "Complete")
              afterFirstBuild (stored afterFirstBuild "alice")
              eq_refl ltac:(vm_compute; eauto) eq_refl eq_refl eq_refl)
    as (_ & Hstored & _).
  exact Hstored.
Defined.

(** X8.  For a deployment-config event that is well formed and whose
    namespace is or becomes registered, [HandleDeploymentConfig] returns
    [nil]; the stored [JenkinsLastUpdate] is the [LastUpdateTime] of the
    [Available] condition when its status is true, otherwise [now] when the
    rollout test holds, otherwise what it was.  It offers one snapshot for
    the rollout and one for the true status; with neither it changes
    nothing, and otherwise the last snapshot is the stored record. *)
Theorem HandleDeploymentConfig_wellformed_event (now : Time) (dc : DCObject)
    (oc : controllerImpl) (ns : string) (c : Condition) (status : bool) :
  userNamespaceOf (Namespace (dc_Metadata (dc_Object dc))) = Some ns ->
  fst (createIfNotExist ns oc) = None ->
  GetByType (dc_Status (dc_Object dc)) availableCond = inr c ->
  ParseBool (c_Status c) = inr status ->
  let ocr := registered ns oc in
  let oc1 := snd (HandleDeploymentConfig now dc oc) in
  fst (HandleDeploymentConfig now dc oc) = Returned None
  /\ JenkinsLastUpdate (stored oc1 ns)
     = (if status then c_LastUpdateTime c
        else if rollout (dc_Object dc) then now
        else JenkinsLastUpdate (stored ocr ns))
  /\ (is_Some (userChannels ocr !! ns) ->
      exists sent,
        offered oc1 ns = offered ocr ns ++ sent
        /\ length sent
           = ((if rollout (dc_Object dc) then 1 else 0) + (if status then 1 else 0))%nat
        /\ (sent = [] -> oc1 = ocr)
        /\ (sent <> [] -> last sent = Some (stored oc1 ns))).
Proof.
  intros Hns Hnil Hc Hp ocr oc1. subst oc1 ocr. unfold registered.
  rewrite (HandleDeploymentConfig_char _ _ _ _ Hns).
  destruct (createIfNotExist ns oc) as [[e|] ocr] eqn:E; simpl in Hnil; [discriminate|].
  destruct (createIfNotExist_nil _ _ _ E) as [u0 Hu0].
  cbn [snd fst]. rewrite Hc. unfold dcUpdate. rewrite Hp, !(stored_lookup _ _ _ Hu0).
  cbn [snd].
  destruct (rollout (dc_Object dc)); destruct status; cbn [fst snd];
    rewrite stored_commit;
    (split; [reflexivity|]; split; [reflexivity|]; intros Hch;
     eexists; split; [now apply offered_commit|];
     split; [reflexivity|]; split; [intros; try discriminate | intros; try reflexivity; try congruence]).
  now apply commit_nothing.
Qed.

Lemma HandleDeploymentConfig_wellformed_event_witness :
  JenkinsLastUpdate
    (stored (snd (HandleDeploymentConfig 100
                    (exampleDC "alice-jenkins" 4 4 1 0
                       [ {| c_Type := "Available"; c_Status := "true";
                            c_LastUpdateTime := 42 |} ])
                    afterFirstBuild)) "alice")
  = 42.
Proof.
  destruct (HandleDeploymentConfig_wellformed_event 100
              (exampleDC "alice-jenkins" 4 4 1 0
                 [ {| c_Type := "Available"; c_Status := "true"; c_LastUpdateTime := 42 |} ])
              afterFirstBuild "alice"
              {| c_Type := "Available"; c_Status := "true"; c_LastUpdateTime := 42 |}
              true eq_refl eq_refl eq_refl eq_refl)
    as (_ & Hjlu & _).
  exact Hjlu.
Defined.

End SupervisorFacts.

(** ** The control plane: the other handlers and the failures *)

Section ControlPlaneFacts.
Import model api apiprops controlplane.

(** X9.  A request whose cluster URL is missing or unknown is rejected
    by [UnIdle], [IsIdle], [Idle], [Reset] and [Status] alike: the answer
    is 400 with the error of [getURLAndToken], no call is made on the
    platform or on the tenant directory, and nothing changes.  [Reset]
    writes the error without a content type, and [Status] reports it under
    the code [tokenFetchFailed]. *)
Theorem unknown_cluster_rejected (TrimSpace : string -> string)
    (JenkinsServices : list string) (PodStateString : PodState -> string)
    (p : platform.Client) (r : Request) (ps : Params) (api : idler)
    (log : list Call) (err : error) :
  fst (getURLAndToken r api) = inl err ->
  (err = ErrURLMissing \/ exists url, err = ErrURLUnknown url)
  /\ UnIdle TrimSpace JenkinsServices r ps api = (respondWithError StatusBadRequest err, api)
  /\ IsIdle r ps api = (respondWithError StatusBadRequest err, api)
  /\ Idle p JenkinsServices api r ps log = (respondWithError StatusBadRequest err, log)
  /\ Reset p api r ps log = (writeError StatusBadRequest err, log)
  /\ Status PodStateString r ps api
     = (writeResponseOf StatusBadRequest
          {| Data := None;
             Errors := [ {| Code := tokenFetchFailed;
                            Description := ("failed to obtain openshift token: ", err) |} ] |},
        api).
Proof.
  intros Hut. split.
  { unfold getURLAndToken in Hut. destruct (Query r !! _) as [[|u ?]|]; simpl in Hut;
      try (inversion Hut; now left).
    destruct (cluster.GetToken _ _); simpl in Hut; inversion Hut. right. eauto. }
  unfold UnIdle, IsIdle, Idle, Reset, Status.
  unfold mbind, H_bind, mret, H_ret.
  rewrite (getURLAndToken_pair r api), Hut. simpl. repeat split.
Qed.

Lemma unknown_cluster_rejected_witness :
  IsIdle requestWithoutCluster [("namespace", "alice")]
    (exampleIdler PodIdled false ∅)
  = (respondWithError StatusBadRequest ErrURLMissing, exampleIdler PodIdled false ∅).
Proof.
  destruct (unknown_cluster_rejected asciiTrimSpace exampleServices (fun _ => "idle")
              (examplePlatform []) requestWithoutCluster
              [("namespace", "alice")] (exampleIdler PodIdled false ∅) [] ErrURLMissing
              eq_refl)
    as (_ & _ & Hisidle & _).
  exact Hisidle.
Defined.

(** The loop of [UnIdle] again: what it returns is the result of its last
    call, every call before the last has succeeded, and nothing but the log
    changes. *)
Lemma unidleServices_last url token ns services api :
  exists rs,
    calls (snd (unidleServices url token ns services api))
    = calls api ++ map (unidleEvent url token ns) rs
    /\ disabledUsers (snd (unidleServices url token ns services api)) = disabledUsers api
    /\ (forall c, last rs = Some c -> fst (unidleServices url token ns services api) = snd c)
    /\ (rs = [] -> fst (unidleServices url token ns services api) = None).
Proof.
  revert api. induction services as [|service rest IH]; intros api.
  - exists []. simpl. rewrite app_nil_r. repeat split; auto. discriminate.
  - simpl. unfold mbind, H_bind, callUnIdle.
    set (res := client.UnIdle _ _ _ _ _ _).
    destruct res as [e|] eqn:Hres.
    + exists [(service, Some e)]. simpl. repeat split; [|discriminate].
      intros c [= <-]. reflexivity.
    + destruct (IH (logCall (EvUnIdle url token ns service None) api))
        as (rs & Hcalls & Hdis & Hlast & Hnil).
      exists ((service, None) :: rs). split; [|split; [|split]].
      * rewrite Hcalls. simpl. now rewrite <- app_assoc.
      * exact Hdis.
      * intros c Hc. destruct rs as [|c' rs']; simpl in Hc.
        -- injection Hc as <-. simpl. now apply Hnil.
        -- apply Hlast. exact Hc.
      * discriminate.
Qed.

(** X10.  The failures of [UnIdle] for a known cluster.  A namespace that
    is blank once trimmed is answered 400 before any call.  A failing read
    of the pod state is answered 500 with that error and is the only call;
    a failing capacity check is answered 500 with that error and no
    [UnIdle] call is made.  When [UnIdle] calls were made, the answer
    follows the last one: 200 when it succeeded, 500 with its error when
    it failed.  The disabled-users set is never touched. *)
Theorem UnIdle_failures (TrimSpace : string -> string) (JenkinsServices : list string)
    (r : Request) (ps : Params) (api : idler) (url token : string) :
  fst (getURLAndToken r api) = inr (url, token) ->
  let ns := TrimSpace (ByName ps "namespace") in
  let resp := fst (UnIdle TrimSpace JenkinsServices r ps api) in
  let api' := snd (UnIdle TrimSpace JenkinsServices r ps api) in
  let new := requestCalls api api' in
  disabledUsers api' = disabledUsers api
  /\ (ns = EmptyString ->
      resp = respondWithError StatusBadRequest ErrNamespaceMissing /\ new = [])
  /\ (forall e, In (EvState url token ns "jenkins" (inl e)) new ->
      resp = respondWithError StatusInternalServerError e
      /\ new = [EvState url token ns "jenkins" (inl e)])
  /\ (forall e, In (EvHasReachedMaxCapacity url ns (inl e)) new ->
      resp = respondWithError StatusInternalServerError e
      /\ unidleCalls new = [])
  /\ (forall service res, last (unidleCalls new) = Some (service, res) ->
      resp = match res with
             | None => WriteHeader StatusOK
             | Some e => respondWithError StatusInternalServerError e
             end).
Proof.
  intros Hut ns resp api' new. subst resp new api'.
  rewrite (UnIdle_unfold _ _ _ _ _ _ _ Hut). fold ns.
  case_bool_decide as Hblank.
  { simpl. rewrite (requestCalls_app api api []) by now rewrite app_nil_r.
    split; [reflexivity|]. split; [auto|]. split; [intros e []|].
    split; [intros e []|]. intros ? ? [=]. }
  set (sres := client.State _ _ _ _ _ _).
  set (api1 := logCall (EvState url token ns "jenkins" sres) api).
  destruct sres as [e|st] eqn:Hs.
  { simpl. rewrite (requestCalls_app api api1 [EvState url token ns "jenkins" (inl e)])
      by reflexivity.
    split; [reflexivity|]. split; [done|]. split; [|split].
    - intros e' [[= <-]|[]]. auto.
    - intros e' [[=]|[]].
    - intros ? ? [=]. }
  destruct (bool_decide (st = PodStarting) || bool_decide (st = PodRunning)).
  { simpl. rewrite (requestCalls_app api api1 [EvState url token ns "jenkins" (inr st)])
      by reflexivity.
    split; [reflexivity|]. split; [done|]. split; [|split].
    - intros e' [[=]|[]].
    - intros e' [[=]|[]].
    - intros ? ? [=]. }
  set (cres := tenantsvc.HasReachedMaxCapacity _ _ _ _).
  set (api2 := logCall (EvHasReachedMaxCapacity url ns cres) api1).
  assert (Hnew2 : forall api3 rs,
             calls api3 = calls api2 ++ map (unidleEvent url token ns) rs ->
             requestCalls api api3
             = [EvState url token ns "jenkins" (inr st);
                EvHasReachedMaxCapacity url ns cres]
               ++ map (unidleEvent url token ns) rs).
  { intros api3 rs E. apply requestCalls_app. rewrite E. subst api2 api1. simpl.
    now rewrite <- !app_assoc. }
  destruct cres as [e|[|]] eqn:Hc.
  - simpl. rewrite (Hnew2 api2 []) by now rewrite app_nil_r. simpl.
    split; [reflexivity|]. split; [done|]. split; [|split].
    + intros e' [[=]|[[=]|[]]].
    + intros e' [[=]|[[= <-]|[]]]. auto.
    + intros ? ? [=].
  - simpl. rewrite (Hnew2 api2 []) by now rewrite app_nil_r. simpl.
    split; [reflexivity|]. split; [done|]. split; [|split].
    + intros e' [[=]|[[=]|[]]].
    + intros e' [[=]|[[=]|[]]].
    + intros ? ? [=].
  - destruct (unidleServices_last url token ns JenkinsServices api2)
      as (rs & Hcalls & Hdis & Hlast & Hnil).
    destruct (unidleServices url token ns JenkinsServices api2) as [err api3].
    simpl in Hcalls, Hdis, Hlast, Hnil.
    assert (Hnew : requestCalls api
                     (snd (match err with
                           | Some e => (respondWithError StatusInternalServerError e, api3)
                           | None => (WriteHeader StatusOK, api3)
                           end))
                   = [EvState url token ns "jenkins" (inr st);
                      EvHasReachedMaxCapacity url ns (inr false)]
                     ++ map (unidleEvent url token ns) rs).
    { destruct err; simpl; now apply Hnew2. }
    rewrite Hnew.
    assert (Hrs : unidleCalls
                    ([EvState url token ns "jenkins" (inr st);
                      EvHasReachedMaxCapacity url ns (inr false)]
                       ++ map (unidleEvent url token ns) rs) = rs)
      by apply unidleCalls_events.
    rewrite Hrs.
    assert (Hnot : forall ev, In ev (map (unidleEvent url token ns) rs) ->
                   exists c, ev = unidleEvent url token ns c).
    { intros ev Hin. apply in_map_iff in Hin as (c & <- & _). eauto. }
    split; [destruct err; exact Hdis|]. split; [done|]. split; [|split].
    + intros e' [[=]|[[=]|Hin]]. apply Hnot in Hin as (c & [=]).
    + intros e' [[=]|[[=]|Hin]]. apply Hnot in Hin as (c & [=]).
    + intros service res Hl. specialize (Hlast _ Hl). simpl in Hlast. subst err.
      destruct res; reflexivity.
Qed.

Lemma UnIdle_failures_witness :
  fst (UnIdle asciiTrimSpace exampleServices (exampleRequest noBody)
         [("namespace", "  ")] (exampleIdler PodIdled false ∅))
  = respondWithError StatusBadRequest ErrNamespaceMissing.
Proof.
  destruct (UnIdle_failures asciiTrimSpace exampleServices (exampleRequest noBody)
              [("namespace", "  ")] (exampleIdler PodIdled false ∅)
              "https://cluster.example" "token" eq_refl)
    as (_ & Hblank & _).
  exact (proj1 (Hblank eq_refl)).
Defined.

Lemma idleServices_spec p url token ns services log :
  exists rs,
    snd (idleServices p url token ns services log) = log ++ map (idleCall url token ns) rs
    /\ map fst rs `prefix_of` services
    /\ (fst (idleServices p url token ns services log) = None ->
        rs = map (fun service => (service, None)) services)
    /\ (forall e, fst (idleServices p url token ns services log) = Some e ->
        exists rs' service,
          rs = rs' ++ [(service, Some e)] /\ Forall (fun c => snd c = None) rs').
Proof.
  revert log. induction services as [|service rest IH]; intros log.
  - exists []. simpl. rewrite app_nil_r. repeat split; auto. discriminate.
  - simpl. unfold mbind, L_bind, callIdle.
    set (res := platform.Idle _ _ _ _ _ _).
    destruct res as [e|] eqn:Hres.
    + exists [(service, Some e)]. simpl. split; [reflexivity|]. split; [|split].
      * exists rest. reflexivity.
      * discriminate.
      * intros e' [= <-]. exists [], service. split; [reflexivity | constructor].
    + destruct (IH (log ++ [CallIdle url token ns service None]))
        as (rs & Hlog & Hpre & Hnil & Herr).
      exists ((service, None) :: rs). split; [|split; [|split]].
      * rewrite Hlog. simpl. now rewrite <- app_assoc.
      * simpl. now apply prefix_cons.
      * intros Hn. simpl. now rewrite (Hnil Hn).
      * intros e He. destruct (Herr e He) as (rs' & svc & -> & Hall).
        exists ((service, None) :: rs'), svc. split; [reflexivity | now constructor].
Qed.

(** X11.  For a known cluster, [Idle] calls the platform for the Jenkins
    services in order, with the namespace parameter as it came (not
    trimmed, not checked), and stops at the first failure.  It answers 200
    exactly when it has called every service and every call has
    succeeded; otherwise it answers 500 with the error of the last call,
    the only one that failed. *)
Theorem Idle_all_services (p : platform.Client) (JenkinsServices : list string)
    (api : idler) (r : Request) (ps : Params) (log : list Call) (url token : string) :
  fst (getURLAndToken r api) = inr (url, token) ->
  let ns := ByName ps "namespace" in
  let resp := fst (Idle p JenkinsServices api r ps log) in
  exists rs,
    snd (Idle p JenkinsServices api r ps log) = log ++ map (idleCall url token ns) rs
    /\ map fst rs `prefix_of` JenkinsServices
    /\ (code resp = StatusOK <->
        rs = map (fun service => (service, None)) JenkinsServices)
    /\ (code resp = StatusOK -> resp = WriteHeader StatusOK)
    /\ (code resp <> StatusOK ->
        exists rs' service e,
          rs = rs' ++ [(service, Some e)]
          /\ Forall (fun c => snd c = None) rs'
          /\ resp = respondWithError StatusInternalServerError e).
Proof.
  intros Hut ns resp. subst resp. unfold Idle. rewrite Hut. fold ns.
  unfold mbind, L_bind, mret, L_ret.
  destruct (idleServices_spec p url token ns JenkinsServices log)
    as (rs & Hlog & Hpre & Hnil & Herr).
  destruct (idleServices p url token ns JenkinsServices log) as [[e|] log'];
    simpl in *; exists rs; (split; [exact Hlog|]); (split; [exact Hpre|]).
  - destruct (Herr e eq_refl) as (rs' & svc & -> & Hall).
    split; [|split].
    + split; [discriminate|]. intros E.
      apply (f_equal (fun l => last l)) in E. rewrite last_snoc in E.
      destruct JenkinsServices as [|s0 l0 _] using rev_ind; [discriminate E|].
      rewrite map_app in E. simpl in E. rewrite last_snoc in E. discriminate E.
    + discriminate.
    + intros _. exists rs', svc, e. auto.
  - split; [|split].
    + split; [intros _; now apply Hnil | reflexivity].
    + reflexivity.
    + intros Hne. now contradict Hne.
Qed.

Lemma Idle_all_services_witness :
  exists rs,
    snd (Idle (examplePlatform ["content-repository"]) exampleServices
           (exampleIdler PodRunning false ∅) (exampleRequest noBody)
           [("namespace", "alice")] [])
    = map (idleCall "https://cluster.example" "token" "alice") rs
    /\ map fst rs `prefix_of` exampleServices.
Proof.
  destruct (Idle_all_services (examplePlatform ["content-repository"]) exampleServices
              (exampleIdler PodRunning false ∅) (exampleRequest noBody)
              [("namespace", "alice")] [] "https://cluster.example" "token" eq_refl)
    as (rs & Hlog & Hpre & _).
  exists rs. split; [exact Hlog | exact Hpre].
Defined.

(** X12.  [Reset] never sets a content type.  It answers 200 exactly when
    the cluster is known and the platform's [Reset] succeeds; for a known
    cluster it makes exactly one call, a [Reset] of the namespace
    parameter, and for a missing or unknown cluster none. *)
Theorem Reset_once (p : platform.Client) (api : idler) (r : Request) (ps : Params)
    (log : list Call) :
  let resp := fst (Reset p api r ps log) in
  let log' := snd (Reset p api r ps log) in
  jsonContentType resp = false
  /\ (code resp = StatusOK <->
      exists url token,
        fst (getURLAndToken r api) = inr (url, token)
        /\ platform.Reset p log url token (ByName ps "namespace") = None)
  /\ (forall url token,
        fst (getURLAndToken r api) = inr (url, token) ->
        log' = log ++ [CallReset url token (ByName ps "namespace")
                         (platform.Reset p log url token (ByName ps "namespace"))])
  /\ (forall err, fst (getURLAndToken r api) = inl err -> log' = log).
Proof.
  unfold Reset, mbind, L_bind, mret, L_ret, callReset.
  destruct (fst (getURLAndToken r api)) as [err|[url token]]; simpl.
  - repeat split; try discriminate; try congruence.
    intros (u & t & [=] & _).
  - destruct (platform.Reset p log url token (ByName ps "namespace")) as [e|] eqn:Hr; simpl.
    + split; [reflexivity|]. split; [|split].
      * split; [discriminate|]. intros (u & t & [= <- <-] & Hn). congruence.
      * intros u t [= <- <-]. now rewrite Hr.
      * discriminate.
    + split; [reflexivity|]. split; [|split].
      * split; [intros _; eauto | reflexivity].
      * intros u t [= <- <-]. now rewrite Hr.
      * discriminate.
Qed.

(** X13.  The answer of [Status] is JSON; it is 200 exactly when it
    carries data, and exactly when it carries no error.  There is at most
    one error: [tokenFetchFailed] with 400 and no call made, or
    [openShiftClientError] with 500.  When the cluster is known and the
    read succeeds, the data is the name of the state and there is no
    error. *)
Theorem Status_response (PodStateString : PodState -> string) (r : Request)
    (ps : Params) (api : idler) :
  let w := fst (Status PodStateString r ps api) in
  let api' := snd (Status PodStateString r ps api) in
  w_json w = true
  /\ (w_code w = StatusOK <-> is_Some (Data (w_body w)))
  /\ (w_code w = StatusOK <-> Errors (w_body w) = [])
  /\ (length (Errors (w_body w)) <= 1)%nat
  /\ (forall e, In e (Errors (w_body w)) ->
      (Code e = tokenFetchFailed /\ w_code w = StatusBadRequest /\ api' = api)
      \/ (Code e = openShiftClientError /\ w_code w = StatusInternalServerError))
  /\ (forall url token st,
        fst (getURLAndToken r api) = inr (url, token) ->
        client.State (openShiftClient api) (calls api) url token
          (ByName ps "namespace") "jenkins" = inr st ->
        w_body w = {| Data := Some {| State := PodStateString st |}; Errors := [] |}).
Proof.
  unfold Status, mbind, H_bind, mret, H_ret.
  rewrite (getURLAndToken_pair r api).
  destruct (fst (getURLAndToken r api)) as [err|[url token]]; simpl.
  - split; [reflexivity|]. split; [split; [discriminate | intros [? [=]]]|].
    split; [split; discriminate|]. split; [lia|]. split.
    + intros e [<-|[]]. left. auto.
    + discriminate.
  - unfold callState. simpl.
    destruct (client.State _ _ _ _ _ _) as [err|st] eqn:Hs; simpl.
    + split; [reflexivity|]. split; [split; [discriminate | intros [? [=]]]|].
      split; [split; discriminate|]. split; [lia|]. split.
      * intros e [<-|[]]. right. auto.
      * intros u t st [= <- <-]. congruence.
    + split; [reflexivity|]. split; [split; eauto|].
      split; [split; reflexivity|]. split; [lia|]. split.
      * intros e [].
      * intros u t st' [= <- <-] Hst. rewrite Hs in Hst. now inversion Hst.
Qed.

(** X14.  [SetUserIdlerStatus] is idempotent: handling the same request a
    second time gives the same answer and leaves the disabled-users set,
    and everything else, as the first time left it. *)
Theorem SetUserIdlerStatus_idempotent (r : Request) (ps : Params) (api : idler) :
  let once := SetUserIdlerStatus r ps api in
  SetUserIdlerStatus r ps (snd once) = once.
Proof.
  unfold SetUserIdlerStatus. destruct (Body r) as [err|users]; simpl; [reflexivity|].
  f_equal. f_equal. unfold Remove, Add. apply set_eq. intros id.
  rewrite !elem_of_difference, !elem_of_union, elem_of_difference, elem_of_union. tauto.
Qed.

(** X15.  After a [PUT /users] that decodes, [GetDisabledUserIdlers]
    answers 200 and lists, each once, exactly the ids that were disabled
    before or are listed in [disable], and are not listed in [enable]; it
    changes nothing. *)
Theorem GetDisabledUserIdlers_after_set (r r' : Request) (ps ps' : Params)
    (api : idler) (users : userStatus) :
  Body r = inr users ->
  let api' := snd (SetUserIdlerStatus r ps api) in
  let listed := Users (w_body (fst (GetDisabledUserIdlers r' ps' api'))) in
  snd (GetDisabledUserIdlers r' ps' api') = api'
  /\ w_code (fst (GetDisabledUserIdlers r' ps' api')) = StatusOK
  /\ NoDup listed
  /\ (forall id : string,
        id ∈ listed <->
        (id ∈ disabledUsers api \/ id ∈ Disable users) /\ id ∉ Enable users).
Proof.
  intros Hb api' listed. subst listed api'.
  unfold SetUserIdlerStatus, GetDisabledUserIdlers, Keys. rewrite Hb. simpl.
  split; [reflexivity|]. split; [reflexivity|]. split; [apply NoDup_elements|].
  intros id. unfold Remove, Add.
  rewrite elem_of_elements, elem_of_difference, elem_of_union, !elem_of_list_to_set. tauto.
Qed.

Lemma GetDisabledUserIdlers_after_set_witness :
  let api' :=
    snd (SetUserIdlerStatus
           (exampleRequest (inr {| Disable := ["T-alice"; "T-bob"]; Enable := ["T-bob"] |}))
           [] (exampleIdler PodIdled false ∅)) in
  NoDup (Users (w_body (fst (GetDisabledUserIdlers (exampleRequest noBody) [] api')))).
Proof.
  destruct (GetDisabledUserIdlers_after_set
              (exampleRequest (inr {| Disable := ["T-alice"; "T-bob"]; Enable := ["T-bob"] |}))
              (exampleRequest noBody) [] []
              (exampleIdler PodIdled false ∅) _ eq_refl)
    as (_ & _ & Hnodup & _).
  exact Hnodup.
Defined.

End ControlPlaneFacts.
